(** * ginga.gtkw.Widgets: wrapped Gtk widgets

    A shallow embedding of the bookkeeping done by [Widgets.py]: the text
    area's scroll-back limit, the combo box's alphabetical insertion, the
    tree view's model building and selection callback, the containers'
    child lists, the splitter's chain of panes and the application's
    window registry.

    Python objects are records carrying their identity, Python exceptions
    are values of [PyError], and the native Gtk objects the wrappers
    drive are modelled by the part of their state the wrappers read back
    (text, rows, pane slots) or by the list of calls made on them. *)

From Stdlib Require Import ZArith Lia Ascii String DecimalString Sorted.
From Stdlib Require Import DecimalNat.
From stdpp Require Import base option list gmap strings.

Open Scope string_scope.
Open Scope list_scope.

(** ** Python values and exceptions *)

Module Py.

Inductive PyError :=
| KeyError (msg : string)
| IndexError (msg : string)
| TypeError (msg : string)
| ValueError (msg : string)
| AttributeError (msg : string).

(** A computation over a mutable object [S]: the object as the call
    leaves it, and either the exception raised or the value returned. *)
Definition M (S A : Type) : Type := S -> S * (PyError + A).

Definition ret {S A} (a : A) : M S A := fun s => (s, inr a).
Definition raise {S A} (e : PyError) : M S A := fun s => (s, inl e).
Definition bind {S A B} (m : M S A) (k : A -> M S B) : M S B :=
  fun s =>
    match m s with
    | (s', inl e) => (s', inl e)
    | (s', inr a) => k a s'
    end.
Definition modify {S} (f : S -> S) : M S unit := fun s => (f s, inr tt).
Definition get {S} : M S S := fun s => (s, inr s).

(** [for x in xs: body x] *)
Fixpoint for_each {S A} (xs : list A) (body : A -> M S unit) : M S unit :=
  match xs with
  | [] => ret tt
  | x :: xs' => bind (body x) (fun _ => for_each xs' body)
  end.

(** Python 2 comparison of two [str]: byte by byte, then by length. *)
Definition str_gt (a b : string) : bool :=
  match String.compare a b with
  | Gt => true
  | _ => false
  end.

(** ['%d' % n] for a non-negative [n]. *)
Definition format_d (n : nat) : string :=
  NilEmpty.string_of_uint (Nat.to_uint n).

End Py.

Notation "'let!' x ':=' m 'in' k" := (Py.bind m (fun x => k))
  (at level 10, x name, m at level 100, k at level 200).
Notation "'do!' m 'in' k" := (Py.bind m (fun _ => k))
  (at level 10, m at level 100, k at level 200).

(** ** TextArea *)

Module TextArea.

(** The [gtk.TextBuffer] of the text view is modelled by its text; a
    [gtk.TextIter] is a character offset into it.  Lines are separated
    by the line feed character, so a buffer always has at least one
    line. *)
Definition LF : ascii := "010"%char.

Fixpoint get_line_count (buf : string) : nat :=
  match buf with
  | EmptyString => 1
  | String c rest =>
      if Ascii.eqb c LF then S (get_line_count rest) else get_line_count rest
  end.

(** The lines of the buffer, oldest first, without their terminators. *)
Fixpoint lines (buf : string) : list string :=
  match buf with
  | EmptyString => [EmptyString]
  | String c rest =>
      if Ascii.eqb c LF then EmptyString :: lines rest
      else match lines rest with
           | l :: ls => String c l :: ls
           | [] => [String c EmptyString]
           end
  end.

(** Offset of the first character of line [n], for a line the buffer
    has. *)
Fixpoint line_start (buf : string) (n : nat) {struct buf} : option nat :=
  match n, buf with
  | 0, _ => Some 0
  | S _, EmptyString => None
  | S n', String c rest =>
      S <$> line_start rest (if Ascii.eqb c LF then n' else n)
  end.

Fixpoint str_drop (n : nat) (buf : string) : string :=
  match n, buf with
  | 0, _ => buf
  | S _, EmptyString => EmptyString
  | S n', String _ rest => str_drop n' rest
  end.

Fixpoint str_take (n : nat) (buf : string) : string :=
  match n, buf with
  | 0, _ => EmptyString
  | S _, EmptyString => EmptyString
  | S n', String c rest => String c (str_take n' rest)
  end.

(** [buf.delete(start, end)]: Gtk puts the two iterators in order. *)
Definition delete (start end_ : nat) (buf : string) : string :=
  String.append (str_take (Nat.min start end_) buf)
                (str_drop (Nat.max start end_) buf).

(** What [get_iter_at_line] answers for a line number past the last
    line is the toolkit's business: Gtk up to 3.18 clamps the request
    to the last line and returns the start of that line, Gtk from 3.20
    on returns the end iterator. *)
Inductive PastLastLine := StartOfLastLine | EndIter.

(** The module does [import gtk]: that is PyGTK, the binding of Gtk 2,
    which clamps. *)
Definition PyGTK : PastLastLine := StartOfLastLine.

(** [buf.get_text(start, end)]: the text between two iterators.  Both
    are required arguments of [gtk.TextBuffer.get_text]; a call without
    them raises [TypeError]. *)
Definition TextBuffer_get_text (buf : string) (bounds : option (nat * nat))
    : Py.PyError + string :=
  match bounds with
  | Some (start, end_) => inr (str_take (end_ - start) (str_drop start buf))
  | None => inl (Py.TypeError "Required argument 'start' (pos 1) not found")
  end.

Record TextArea := {
  buffer : string;           (* text of self.widget.get_buffer() *)
  histlimit : Z;             (* self.histlimit *)
  scrolled_to : option nat   (* offset of the mark last scrolled to *)
}.

Definition set_buffer (buf : string) (self : TextArea) : TextArea :=
  {| buffer := buf; histlimit := histlimit self;
     scrolled_to := scrolled_to self |}.

(** [__init__]: an empty buffer and no limit. *)
Definition __init__ : TextArea :=
  {| buffer := EmptyString; histlimit := 0; scrolled_to := None |}.

Section Toolkit.
Variable past_last_line : PastLastLine.

Definition get_iter_at_line (buf : string) (line_number : nat) : nat :=
  match line_start buf line_number with
  | Some offset => offset
  | None =>
      match past_last_line with
      | EndIter => String.length buf
      | StartOfLastLine =>
          default 0 (line_start buf (get_line_count buf - 1))
      end
  end.

Definition _history_housekeeping (self : TextArea) : TextArea :=
  let buf := buffer self in
  let numlines := Z.of_nat (get_line_count buf) in
  if (numlines >? histlimit self)%Z then
    let rmcount := (numlines - histlimit self)%Z in
    let start := get_iter_at_line buf 0 in
    let end_ := get_iter_at_line buf (Z.to_nat rmcount) in
    set_buffer (delete start end_ buf) self
  else self.

Definition append_text (self : TextArea) (text : string)
    (autoscroll : bool) : TextArea :=
  let self := set_buffer (String.append (buffer self) text) self in
  let self :=
    if (histlimit self >? 0)%Z then _history_housekeeping self else self in
  if negb autoscroll then self
  else
    let end_ := String.length (buffer self) in
    {| buffer := buffer self; histlimit := histlimit self;
       scrolled_to := Some end_ |}.

(** [get_text] calls [buf.get_text()] with no argument. *)
Definition get_text (self : TextArea) : Py.PyError + string :=
  TextBuffer_get_text (buffer self) None.

Definition clear (self : TextArea) : TextArea :=
  set_buffer (delete 0 (String.length (buffer self)) (buffer self)) self.

Definition set_text (self : TextArea) (text : string) : TextArea :=
  append_text (clear self) text true.


End Toolkit.

(** A run of [append_text] calls, each scrolling to the end. *)
Definition append_all (tk : PastLastLine) (self : TextArea)
    (texts : list string) : TextArea :=
  foldl (fun self text => append_text tk self text true) self texts.

(** The lines of a text followed by another: the last line of the first
    runs on into the first line of the second. *)
Fixpoint glue (ls lt : list string) : list string :=
  match ls with
  | [] => lt
  | l :: ls' =>
      match ls' with
      | [] =>
          match lt with
          | [] => [l]
          | h :: tl => String.append l h :: tl
          end
      | _ :: _ => l :: glue ls' lt
      end
  end.

(** The text made of the given lines. *)
Fixpoint unlines (ls : list string) : string :=
  match ls with
  | [] => EmptyString
  | l :: ls' =>
      match ls' with
      | [] => l
      | _ :: _ => String.append l (String LF (unlines ls'))
      end
  end.

End TextArea.

(** ** ComboBox *)

Module ComboBox.

(** The [gtk.ListStore] behind the combo box holds one-column rows
    [(text,)]; a row is represented by its column 0. *)
Abbreviation ListStore := (list string).

(** [model.insert(position, row)]: Gtk appends the row when [position]
    is past the last row. *)
Definition liststore_insert (position : nat) (row : string)
    (model : ListStore) : ListStore :=
  take position model ++ row :: drop position model.

(** The body of [for i in range(len(model))] in [insert_alpha], followed
    by the statement after the loop; [j] is the loop's running copy of
    [i]. *)
Fixpoint insert_alpha_loop (model : ListStore) (text : string)
    (range : list nat) (j : nat) : ListStore :=
  match range with
  | [] => liststore_insert (j + 1) text model
  | i :: range' =>
      let j := i in
      match model !! i with
      | Some row =>
          if Py.str_gt row text
          then liststore_insert j text model
          else insert_alpha_loop model text range' j
      | None => model (* i < len(model): not reached *)
      end
  end.

Definition insert_alpha (model : ListStore) (text : string) : ListStore :=
  insert_alpha_loop model text (seq 0 (length model)) 0.

(** [append_text] *)
Definition append_text (model : ListStore) (text : string) : ListStore :=
  liststore_insert (length model) text model.

(** Reading all entries in order after a run of [insert_alpha] calls. *)
Definition insert_all (texts : list string) (model : ListStore) : ListStore :=
  foldl insert_alpha model texts.

(** Ascending order of Python 2 strings: [not (a > b)]. *)
Definition str_le (a b : string) : Prop := Py.str_gt a b = false.

(** Insertion before the first entry greater than [text], written by
    recursion on the entries. *)
Fixpoint insert_before_greater (text : string) (model : ListStore) : ListStore :=
  match model with
  | [] => [text]
  | row :: rest =>
      if Py.str_gt row text then text :: row :: rest
      else row :: insert_before_greater text rest
  end.

(** The loop of [delete_alpha]: the first row equal to [text] is
    deleted and the method returns. *)
Fixpoint delete_alpha_loop (model : ListStore) (text : string)
    (range : list nat) : ListStore :=
  match range with
  | [] => model
  | i :: range' =>
      match model !! i with
      | Some row =>
          if String.eqb row text then delete i model
          else delete_alpha_loop model text range'
      | None => model (* i < len(model): not reached *)
      end
  end.

Definition delete_alpha (model : ListStore) (text : string) : ListStore :=
  delete_alpha_loop model text (seq 0 (length model)).

(** [insert_text(idx, text)] for an index that is not negative. *)
Definition insert_text (model : ListStore) (idx : nat) (text : string)
    : ListStore :=
  liststore_insert idx text model.

(** [get_alpha(idx)]: [model[idx][0]]. *)
Definition get_alpha (model : ListStore) (idx : nat) : Py.PyError + string :=
  match model !! idx with
  | Some text => inr text
  | None => inl (Py.IndexError "could not find tree path")
  end.

(** [clear] *)
Definition clear (model : ListStore) : ListStore := [].

(** The combo box with the index of its active entry, [-1] when there
    is none. *)
Record ComboBox := { rows : ListStore; active : Z }.

Definition set_index (self : ComboBox) (index : Z) : ComboBox :=
  {| rows := rows self; active := index |}.

Definition get_index (self : ComboBox) : Z := active self.

(** The loop of [show_text]: the first row equal to [text] becomes the
    active one. *)
Fixpoint show_text_loop (self : ComboBox) (text : string)
    (range : list nat) : ComboBox :=
  match range with
  | [] => self
  | i :: range' =>
      match rows self !! i with
      | Some row =>
          if String.eqb row text then set_index self (Z.of_nat i)
          else show_text_loop self text range'
      | None => self (* i < len(model): not reached *)
      end
  end.

Definition show_text (self : ComboBox) (text : string) : ComboBox :=
  show_text_loop self text (seq 0 (length (rows self))).

(** Deletion of the first entry equal to [text], written by recursion
    on the entries. *)
Fixpoint delete_first_equal (text : string) (model : ListStore) : ListStore :=
  match model with
  | [] => []
  | row :: rest =>
      if String.eqb row text then rest
      else row :: delete_first_equal text rest
  end.

End ComboBox.

(** ** TreeView *)

Module TreeView.
Import Py.

(** The values a tree dictionary is made of.  A [dict] is the list of
    its items in iteration order; its keys are distinct. *)
#[warnings="-register-all"]
Inductive PyVal :=
| PStr (s : string)
| PBool (b : bool)
| PDict (items : list (string * PyVal)).

(** What a row of the [gtk.TreeStore(object)] holds in column 0: the
    key of a branch, or the list of column values of a terminal. *)
Inductive RowValue :=
| Branch (key : string)
| Row (l : list PyVal).

(** A row of the store with the row it hangs under ([None] at top
    level).  A [gtk.TreeIter] is the index of the row in the store;
    rows under one parent are displayed in the order they were
    appended. *)
Record TreeRow := { parent : option nat; value : RowValue }.

Abbreviation TreeStore := (list TreeRow).

(** [model.append(parent, [value])] returns the iterator of the new
    row. *)
Definition append (parent_item : option nat) (v : RowValue) : M TreeStore nat :=
  fun model =>
    (model ++ [{| parent := parent_item; value := v |}], inr (length model)).

Record TreeView := {
  auto_expand : bool;
  sortable : bool;
  columns : list string;
  tv_columns : list nat;     (* the columns of self.tv, in the order they
                                were appended, each known by the index
                                its cell data function was made with *)
  model : TreeStore;         (* self.tv.get_model() *)
  expanded : bool            (* self.tv.expand_all() was called on this model *)
}.

Definition __init__ (auto_expand sortable : bool) : TreeView :=
  {| auto_expand := auto_expand; sortable := sortable; columns := [];
     tv_columns := []; model := []; expanded := false |}.

(** [set_headers] appends one [gtk.TreeViewColumn] per header to the
    view; the columns the view already has are not removed. *)
Definition set_headers (self : TreeView) (columns : list string) : TreeView :=
  {| auto_expand := auto_expand self; sortable := sortable self;
     columns := columns;
     tv_columns := tv_columns self ++ seq 0 (length columns);
     model := []; expanded := false |}.

Fixpoint is_prefix (p s : string) : bool :=
  match p, s with
  | EmptyString, _ => true
  | String _ _, EmptyString => false
  | String a p', String b s' => Ascii.eqb a b && is_prefix p' s'
  end.

Fixpoint is_substring (p s : string) : bool :=
  is_prefix p s ||
  match s with
  | EmptyString => false
  | String _ s' => is_substring p s'
  end.

Fixpoint dict_get (items : list (string * PyVal)) (key : string) : option PyVal :=
  match items with
  | [] => None
  | (k, v) :: rest => if String.eqb k key then Some v else dict_get rest key
  end.

(** ['__terminal__' in node] *)
Definition has_terminal (node : PyVal) : PyError + bool :=
  match node with
  | PDict items => inr (bool_decide (is_Some (dict_get items "__terminal__")))
  | PStr s => inr (is_substring "__terminal__" s)
  | PBool _ => inl (TypeError "argument of type 'bool' is not iterable")
  end.

(** [node[hdr]] *)
Definition getitem (node : PyVal) (hdr : string) : PyError + PyVal :=
  match node with
  | PDict items =>
      match dict_get items hdr with
      | Some v => inr v
      | None => inl (KeyError hdr)
      end
  | PStr _ => inl (TypeError "string indices must be integers, not str")
  | PBool _ => inl (TypeError "'bool' object has no attribute '__getitem__'")
  end.

(** [[ node[hdr] for hdr in self.columns ]] *)
Fixpoint row_values (node : PyVal) (columns : list string) : PyError + list PyVal :=
  match columns with
  | [] => inr []
  | hdr :: rest =>
      match getitem node hdr with
      | inl e => inl e
      | inr v =>
          match row_values node rest with
          | inl e => inl e
          | inr l => inr (v :: l)
          end
      end
  end.

Definition lift {S A} (r : PyError + A) : M S A := fun s => (s, r).

Fixpoint _set_subtree (columns : list string) (level : nat)
    (parent_item : option nat) (key : string) (node : PyVal)
    {struct node} : M TreeStore unit :=
  let! terminal := lift (has_terminal node) in
  if (terminal : bool) then
    (* terminal node *)
    let! l := lift (row_values node columns) in
    let! _ := append parent_item (Row l) in
    ret tt
  else
    let! item := append None (Branch key) in
    match node with
    | PDict items =>
        (fix for_key (items : list (string * PyVal)) : M TreeStore unit :=
           match items with
           | [] => ret tt
           | (key, child) :: rest =>
               do! _set_subtree columns (level + 1) (Some item) key child in
               for_key rest
           end) items
    | PStr EmptyString => ret tt
    | PStr (String _ _) =>
        raise (TypeError "string indices must be integers, not str")
    | PBool _ => raise (TypeError "'bool' object is not iterable")
    end.

(** [set_tree]: the new model is installed only when every subtree was
    built without an exception. *)
Definition set_tree (self : TreeView) (tree_dict : list (string * PyVal))
    : TreeView * (PyError + unit) :=
  let build :=
    for_each tree_dict
      (fun item => _set_subtree (columns self) 0 None (fst item) (snd item)) in
  match build [] with
  | (_, inl e) => (self, inl e)
  | (model, inr _) =>
      ({| auto_expand := auto_expand self; sortable := sortable self;
          columns := columns self; tv_columns := tv_columns self;
          model := model; expanded := auto_expand self |}, inr tt)
  end.

(** The iterators of the rows under [p], in display order. *)
Definition children_of (model : TreeStore) (p : option nat) : list nat :=
  filter (fun i => bool_decide (parent <$> model !! i = Some p))
         (seq 0 (length model)).

(** [model.get_iter(path)] for a path given as a tuple of indices. *)
Fixpoint get_iter_from (model : TreeStore) (cur : option nat)
    (path : list nat) : PyError + option nat :=
  match path with
  | [] => inr cur
  | i :: rest =>
      match children_of model cur !! i with
      | Some it => get_iter_from model (Some it) rest
      | None => inl (ValueError "invalid tree path")
      end
  end.

Definition get_iter (model : TreeStore) (path : list nat) : PyError + nat :=
  match get_iter_from model None path with
  | inl e => inl e
  | inr (Some it) => inr it
  | inr None => inl (ValueError "invalid tree path")
  end.

(** [model.iter_parent(child)] *)
Definition iter_parent (model : TreeStore) (child : nat) : option nat :=
  row ← model !! child; parent row.

(** [res[0]] *)
Definition first_item (res : RowValue) : PyError + PyVal :=
  match res with
  | Row (v :: _) => inr v
  | Row [] => inl (IndexError "list index out of range")
  | Branch (String c _) => inr (PStr (String c EmptyString))
  | Branch EmptyString => inl (IndexError "string index out of range")
  end.

(** The argument of a ['selected'] callback: [(top_name, item_name)]. *)
Record Selected := { top_name : RowValue; item_name : PyVal }.

(** [_cb_redirect], run when the cursor moves to the row at [path]:
    the callback made, if any. *)
Definition _cb_redirect (self : TreeView) (path : list nat)
    : PyError + option Selected :=
  match get_iter (model self) path with
  | inl e => inl e
  | inr child =>
      match iter_parent (model self) child with
      | None => inr None
      | Some parent =>
          match model self !! child, model self !! parent with
          | Some crow, Some prow =>
              match first_item (value crow) with
              | inl e => inl e
              | inr item_name =>
                  inr (Some {| top_name := value prow;
                               item_name := item_name |})
              end
          | _, _ => inl (ValueError "invalid tree iter")
          end
      end
  end.

(** The tree of the specification's example. *)
Definition example_tree : list (string * PyVal) :=
  [("g1", PDict [("x", PDict [("__terminal__", PBool true);
                              ("Name", PStr "x");
                              ("Value", PStr "1")])])].

(** A view after [set_headers(["Name", "Value"])] and [set_tree] of the
    example. *)
Definition example_view (auto_expand sortable : bool) : TreeView :=
  (set_tree (set_headers (__init__ auto_expand sortable) ["Name"; "Value"])
            example_tree).1.

(** A three-level mapping: the branch ["b"] lies under the branch
    ["a"]. *)
Definition nested_tree : list (string * PyVal) :=
  [("a", PDict [("b", PDict [("x", PDict [("__terminal__", PBool true);
                                          ("Name", PStr "x")])])])].

(** Every branch row of the store is a top-level row. *)
Definition branches_top (model : TreeStore) : Prop :=
  Forall (fun r => match value r with
                   | Branch _ => parent r = None
                   | Row _ => True
                   end) model.

(** The cell data functions made by [_mkcolfn0] and [_mkcolfnN]: the
    value handed to the cell's ['text'] property for a row, or the
    exception of [bnch[idx]]. *)
Definition getindex (l : list PyVal) (idx : nat) : PyError + PyVal :=
  match l !! idx with
  | Some v => inr v
  | None => inl (IndexError "list index out of range")
  end.

Definition _mkcolfn0 (idx : nat) (bnch : RowValue) : PyError + PyVal :=
  match bnch with
  | Branch key => inr (PStr key)
  | Row l => getindex l idx
  end.

Definition _mkcolfnN (idx : nat) (bnch : RowValue) : PyError + PyVal :=
  match bnch with
  | Branch _ => inr (PStr "")
  | Row l => getindex l idx
  end.

(** The function [set_headers] gives to column [n]. *)
Definition column_fn (n : nat) : RowValue -> PyError + PyVal :=
  match n with
  | 0 => _mkcolfn0 0
  | S _ => _mkcolfnN n
  end.

(** The nodes [_set_subtree] goes through without raising: a terminal
    has a value for every header, a branch has only such nodes under
    it.  A [str] passes as a terminal when it contains the sentinel and
    there are no headers, and as a branch when it is empty. *)
Fixpoint accepted (columns : list string) (node : PyVal) : bool :=
  match node with
  | PDict items =>
      if bool_decide (is_Some (dict_get items "__terminal__"))
      then forallb (fun hdr => bool_decide (is_Some (dict_get items hdr)))
                   columns
      else (fix all (items : list (string * PyVal)) : bool :=
              match items with
              | [] => true
              | (_, child) :: rest => accepted columns child && all rest
              end) items
  | PStr s =>
      if is_substring "__terminal__" s
      then bool_decide (columns = [])
      else bool_decide (s = EmptyString)
  | PBool _ => false
  end.

Definition accepted_tree (columns : list string)
    (tree_dict : list (string * PyVal)) : bool :=
  forallb (fun item => accepted columns item.2) tree_dict.

(** Whether a call returned rather than raised. *)
Definition ok {A} (r : PyError + A) : bool :=
  match r with inr _ => true | inl _ => false end.

(** Every terminal row has one value per header. *)
Definition rows_width (columns : list string) (model : TreeStore) : Prop :=
  Forall (fun r => match value r with
                   | Row l => length l = length columns
                   | Branch _ => True
                   end) model.

(** [p] names a branch row of the model. *)
Definition is_branch (model : TreeStore) (p : nat) : Prop :=
  exists key, model !! p = Some {| parent := None; value := Branch key |}.

(** Every row with a parent is a terminal row under a branch row that
    was appended before it. *)
Definition parents_ok (model : TreeStore) : Prop :=
  forall i r p, model !! i = Some r -> parent r = Some p ->
    p < i /\ is_branch model p /\ exists l, value r = Row l.

End TreeView.

(** ** The native side of a wrapper *)

Module Gtk.

(** A native widget is known by a handle: [Own i] is the [i]-th native
    widget the wrapper at hand has constructed itself, [Foreign h] one
    that belongs to another wrapper (a child's [get_widget()]). *)
Inductive Handle := Own (i : nat) | Foreign (h : nat).

Inductive GtkClass :=
| HBox | VBox | HPaned | VPaned | HScale | VScale
| HScrollbar | VScrollbar | Toolbar.

Inductive Orientation := ORIENTATION_HORIZONTAL | ORIENTATION_VERTICAL.
Inductive UpdatePolicy := UPDATE_CONTINUOUS | UPDATE_DISCONTINUOUS.

(** The calls the wrappers make on native widgets. *)
Inductive GtkCall :=
| New (cls : GtkClass)
| remove (child : Handle)
| pack_start (child : Handle) (expand fill : bool)
| show_all
| show
| add (child : Handle)
| add_with_viewport (child : Handle)
| append_page (child : Handle) (label : string)
| pack1 (child : Handle)
| pack2 (child : Handle)
| attach (child : Handle) (left right top bottom : Z) (expand : bool)
| append_widget (child : Handle)
| append (child : Handle)
| set_style_icons
| set_orientation (o : Orientation)
| set_size_request (width height : Z)
| set_draw_value (tf : bool)
| set_value_pos_bottom
| set_update_policy (p : UpdatePolicy)
| connect (signal : string).

#[export] Instance Handle_eq_dec : EqDecision Handle.
Proof. solve_decision. Defined.

(** The calls made so far, oldest first, each with its receiver. *)
Abbreviation Log := (list (Handle * GtkCall)).

(** The two slots of a [gtk.Paned], as the calls in the log leave them:
    [pack1] and [pack2] fill a slot that is empty, [remove] empties the
    slot that holds the widget. *)
Record Paned := { child1 : option Handle; child2 : option Handle }.

Definition paned_call (st : Paned) (c : GtkCall) : Paned :=
  match c with
  | pack1 x =>
      match child1 st with
      | None => {| child1 := Some x; child2 := child2 st |}
      | Some _ => st
      end
  | pack2 x =>
      match child2 st with
      | None => {| child1 := child1 st; child2 := Some x |}
      | Some _ => st
      end
  | remove x =>
      {| child1 := if bool_decide (child1 st = Some x) then None else child1 st;
         child2 := if bool_decide (child2 st = Some x) then None else child2 st |}
  | _ => st
  end.

Definition paned (log : Log) (pane : Handle) : Paned :=
  foldl (fun st c => if bool_decide (c.1 = pane) then paned_call st c.2 else st)
        {| child1 := None; child2 := None |} log.

(** The native widgets constructed in the log, with their classes. *)
Definition constructed (log : Log) : list (Handle * GtkClass) :=
  omap (fun c => match c.2 with New cls => Some (c.1, cls) | _ => None end) log.

End Gtk.

(** ** Containers *)

Module ContainerBase.
Import Py Gtk.

(** A reference to a wrapper object: its identity and the handle of its
    native widget.  Wrappers define no [__eq__], so [==] and [in]
    compare identities. *)
Record Widget := { oid : nat; handle : nat }.

#[export] Instance Widget_eq_dec : EqDecision Widget.
Proof. solve_decision. Defined.

Definition get_widget (w : Widget) : Handle := Foreign (handle w).

(** The attributes of a container object and the calls it has made on
    native widgets.  [orientation] and [panes] are attributes of a
    Splitter; the other classes do not set them. *)
Record Container := {
  widget : Handle;             (* self.widget *)
  children : list Widget;      (* self.children *)
  orientation : option string; (* self.orientation *)
  panes : list Handle;         (* self.panes *)
  made : nat;                  (* native widgets constructed by self *)
  gtk : Log
}.

Definition set_children (l : list Widget) (self : Container) : Container :=
  {| widget := widget self; children := l; orientation := orientation self;
     panes := panes self; made := made self; gtk := gtk self |}.

Definition set_panes (l : list Handle) (self : Container) : Container :=
  {| widget := widget self; children := children self;
     orientation := orientation self; panes := l; made := made self;
     gtk := gtk self |}.

(** A call on a native widget. *)
Definition call (h : Handle) (c : GtkCall) : M Container unit :=
  modify (fun self =>
    {| widget := widget self; children := children self;
       orientation := orientation self; panes := panes self;
       made := made self; gtk := gtk self ++ [(h, c)] |}).

(** Constructing a native widget. *)
Definition new (cls : GtkClass) : M Container Handle :=
  fun self =>
    ({| widget := widget self; children := children self;
        orientation := orientation self; panes := panes self;
        made := S (made self);
        gtk := gtk self ++ [(Own (made self), New cls)] |},
     inr (Own (made self))).

(** [list.remove(x)]: the first item equal to [x] goes. *)
Fixpoint list_remove (x : Widget) (l : list Widget) : list Widget :=
  match l with
  | [] => []
  | y :: l' => if bool_decide (y = x) then l' else y :: list_remove x l'
  end.

(** [__init__], with the native widget the subclass makes. *)
Definition __init__ (cls : GtkClass) : Container :=
  {| widget := Own 0; children := []; orientation := None;
     panes := []; made := 1; gtk := [(Own 0, New cls)] |}.

Definition add_ref (ref : Widget) : M Container unit :=
  modify (fun self => set_children (children self ++ [ref]) self).

Definition _remove (childw : Handle) : M Container unit :=
  let! self := get in
  call (widget self) (remove childw).

(** The error of [remove] for a widget that is not a child. *)
Definition NotAChildError : PyError :=
  KeyError "Widget is not a child of this container".

Definition remove (w : Widget) : M Container unit :=
  let! self := get in
  if bool_decide (w ∈ children self) then
    do! modify (fun self => set_children (list_remove w (children self)) self) in
    _remove (get_widget w)
  else raise NotAChildError.

Definition remove_all : M Container unit :=
  let! self := get in
  for_each (children self) remove.

Definition get_children (self : Container) : list Widget := children self.

End ContainerBase.

Module Box.
Import Py Gtk ContainerBase.

Definition __init__ (orientation : string) : PyError + Container :=
  if String.eqb orientation "horizontal"
  then inr (ContainerBase.__init__ HBox)
  else inr (ContainerBase.__init__ VBox).

(** [stretch] is only compared with zero. *)
Definition add_widget (child : Widget) (stretch : Z) : M Container unit :=
  do! add_ref child in
  let child_w := get_widget child in
  let expand := negb (stretch =? 0)%Z in
  let! self := get in
  do! call (widget self) (pack_start child_w expand true) in
  call (widget self) show_all.

End Box.

Module Frame.
Import Py Gtk ContainerBase.

(** [Frame.set_widget]; [Expander.set_widget] is the same text. *)
Definition set_widget (child : Widget) : M Container unit :=
  do! remove_all in
  do! add_ref child in
  let! self := get in
  do! call (widget self) (add (get_widget child)) in
  call (widget self) show_all.

End Frame.

Module TabWidget.
Import Py Gtk ContainerBase.

Definition add_widget (child : Widget) (title : string) : M Container unit :=
  do! add_ref child in
  let child_w := get_widget child in
  let! self := get in
  do! call (widget self) (append_page child_w title) in
  call (widget self) show_all.

End TabWidget.

Module ScrollArea.
Import Py Gtk ContainerBase.

Definition set_widget (child : Widget) : M Container unit :=
  do! remove_all in
  do! add_ref child in
  let! self := get in
  do! call (widget self) (add_with_viewport (get_widget child)) in
  call (widget self) show_all.

End ScrollArea.

Module Splitter.
Import Py Gtk ContainerBase.

Definition _get_pane : M Container Handle :=
  let! self := get in
  if bool_decide (orientation self = Some "horizontal")
  then new HPaned
  else new VPaned.

Definition __init__ (orientation : string) : PyError + Container :=
  let self :=
    {| widget := Own 0; children := []; orientation := Some orientation;
       panes := []; made := 0; gtk := [] |} in
  match _get_pane self with
  | (self, inr w) =>
      inr {| widget := w; children := children self;
             orientation := ContainerBase.orientation self; panes := [];
             made := made self; gtk := gtk self |}
  | (_, inl e) => inl e
  end.

Definition add_widget (child : Widget) : M Container unit :=
  do! add_ref child in
  let child_w := get_widget child in
  let! self := get in
  do! (if (length (children self) =? 1)%nat then
         call (widget self) (pack1 child_w)
       else
         let last_ := default (widget self) (last (panes self)) in
         let! w := _get_pane in
         do! modify (fun self => set_panes (panes self ++ [w]) self) in
         do! call w (pack1 child_w) in
         call last_ (pack2 w)) in
  call (widget self) show_all.

End Splitter.

Module GridBox.
Import Py Gtk ContainerBase.

Definition add_widget (child : Widget) (row col stretch : Z)
    : M Container unit :=
  do! add_ref child in
  let w := get_widget child in
  let expand := (stretch >? 0)%Z in
  let! self := get in
  do! call (widget self) (attach w col (col + 1) row (row + 1) expand) in
  call (widget self) show_all.

End GridBox.

Module Toolbar.
Import Py Gtk ContainerBase.

Definition __init__ (orientation : string) : PyError + Container :=
  let self := ContainerBase.__init__ Gtk.Toolbar in
  let w := widget self in
  let init :=
    do! call w set_style_icons in
    if String.eqb orientation "horizontal"
    then call w (set_orientation ORIENTATION_HORIZONTAL)
    else call w (set_orientation ORIENTATION_VERTICAL) in
  match init self with
  | (self, inr _) => inr self
  | (_, inl e) => inl e
  end.

Definition add_widget (child : Widget) : M Container unit :=
  do! add_ref child in
  let w := get_widget child in
  let! self := get in
  call (widget self) (append_widget w).

End Toolbar.

Module Menu.
Import Py Gtk ContainerBase.

Definition add_widget (child : Widget) : M Container unit :=
  let menuitem_w := get_widget child in
  let! self := get in
  do! call (widget self) (append menuitem_w) in
  add_ref child.

End Menu.

Module Menubar.
Import Py Gtk ContainerBase.

(** [self.widget.addMenu]: a [gtk.MenuBar] has no attribute of that
    name (the method of [gtk.MenuShell] is [append], as [add_name] and
    [Menu.add_widget] call it), so looking it up raises. *)
Definition addMenu {A} : M Container A :=
  raise (AttributeError "'gtk.MenuBar' object has no attribute 'addMenu'").

Definition add_widget (child : Widget) : M Container Widget :=
  let menu_w := get_widget child in
  do! addMenu (A := unit) in
  do! add_ref child in
  do! call menu_w show in
  ret child.

End Menubar.

Module TopLevel.
Import Py Gtk ContainerBase.

(** [TopLevel.set_widget]: unlike the other [set_widget] methods it
    does not call [remove_all] first. *)
Definition set_widget (child : Widget) : M Container unit :=
  do! add_ref child in
  let child_w := get_widget child in
  let! self := get in
  call (widget self) (add child_w).

End TopLevel.

(** Wrappers that are not containers: the native widget and the calls
    made on it. *)
Module Slider.
Import Py Gtk.

Record Leaf := { widget : Handle; gtk : Log }.

Definition set_tracking (tf : bool) : GtkCall :=
  if tf then set_update_policy UPDATE_CONTINUOUS
  else set_update_policy UPDATE_DISCONTINUOUS.

Definition __init__ (orientation : string) (track : bool) : PyError + Leaf :=
  let w := Own 0 in
  let made :=
    if String.eqb orientation "horizontal"
    then [(w, New HScale); (w, set_size_request 200 (-1))]
    else [(w, New VScale); (w, set_size_request (-1) 200)] in
  inr {| widget := w;
         gtk := made ++ [(w, set_draw_value true); (w, set_value_pos_bottom);
                         (w, set_tracking track);
                         (w, connect "value-changed")] |}.

End Slider.

Module ScrollBar.
Import Py Gtk.

Definition __init__ (orientation : string) : PyError + Slider.Leaf :=
  let w := Own 0 in
  let made :=
    if String.eqb orientation "horizontal"
    then [(w, New HScrollbar)]
    else [(w, New VScrollbar)] in
  inr {| Slider.widget := w;
         Slider.gtk := made ++ [(w, connect "value-changed")] |}.

End ScrollBar.

(** ** Sequences of container operations *)

Module Ops.
Import Py Gtk ContainerBase.

(** The [add_widget] methods of the container classes, each with its
    own arguments. *)
Inductive AddWidget :=
| BoxAdd (child : Widget) (stretch : Z)
| TabWidgetAdd (child : Widget) (title : string)
| SplitterAdd (child : Widget)
| GridBoxAdd (child : Widget) (row col stretch : Z)
| ToolbarAdd (child : Widget)
| MenuAdd (child : Widget)
| MenubarAdd (child : Widget).

Inductive Op :=
| Add (a : AddWidget)
| Remove (w : Widget)
| RemoveAll.

Definition added (a : AddWidget) : Widget :=
  match a with
  | BoxAdd child _ | TabWidgetAdd child _ | SplitterAdd child
  | GridBoxAdd child _ _ _ | ToolbarAdd child | MenuAdd child
  | MenubarAdd child => child
  end.

Definition add_widget (a : AddWidget) : M Container unit :=
  match a with
  | BoxAdd child stretch => Box.add_widget child stretch
  | TabWidgetAdd child title => TabWidget.add_widget child title
  | SplitterAdd child => Splitter.add_widget child
  | GridBoxAdd child row col stretch => GridBox.add_widget child row col stretch
  | ToolbarAdd child => Toolbar.add_widget child
  | MenuAdd child => Menu.add_widget child
  | MenubarAdd child => do! Menubar.add_widget child in ret tt
  end.

Definition run_op (op : Op) : M Container unit :=
  match op with
  | Add a => add_widget a
  | Remove w => remove w
  | RemoveAll => remove_all
  end.

(** The calls made one after the other on the same container; a call
    that raises leaves the container as it was when the exception
    left it, and the caller goes on. *)
Fixpoint exec (ops : list Op) (self : Container) : Container :=
  match ops with
  | [] => self
  | op :: rest => exec rest (run_op op self).1
  end.

(** The same sequence on an ordinary ordered collection, in the words
    of the specification: add appends, remove deletes the first match,
    [remove_all] leaves the collection empty. *)
Definition delete_first (w : Widget) (l : list Widget) : list Widget :=
  match list_find (fun x => x = w) l with
  | Some (i, _) => delete i l
  | None => l
  end.

Fixpoint simulate (ops : list Op) (l : list Widget) : list Widget :=
  match ops with
  | [] => l
  | Add a :: rest => simulate rest (l ++ [added a])
  | Remove w :: rest => simulate rest (delete_first w l)
  | RemoveAll :: rest => simulate rest []
  end.

(** The calls of a sequence that get as far as [add_ref], [remove] or
    [remove_all]: every call but the [add_widget] of a Menubar. *)
Definition reaches_add_ref (a : AddWidget) : bool :=
  match a with
  | MenubarAdd _ => false
  | _ => true
  end.

Fixpoint effective (ops : list Op) : list Op :=
  match ops with
  | [] => []
  | Add a :: rest =>
      if reaches_add_ref a then Add a :: effective rest else effective rest
  | op :: rest => op :: effective rest
  end.

(** The class of the panes a splitter makes. *)
Definition pane_class (orientation : string) : GtkClass :=
  if bool_decide (Some orientation = Some "horizontal") then HPaned else VPaned.

(** The splitter as [Splitter.__init__] leaves it. *)
Definition Splitter_root (orientation : string) : Container :=
  {| widget := Own 0; children := []; orientation := Some orientation;
     panes := []; made := 1;
     gtk := [(Own 0, New (pane_class orientation))] |}.

(** The splitter after its first three [add_widget] calls. *)
Definition three_children (self : Container) (c1 c2 c3 : Widget) : Container :=
  exec [Add (SplitterAdd c1); Add (SplitterAdd c2); Add (SplitterAdd c3)] self.

(** A run of [Splitter.add_widget] calls. *)
Definition add_children (cs : list Widget) (self : Container) : Container :=
  exec (map (fun c => Add (SplitterAdd c)) cs) self.

(** The pane a splitter uses for its [i]-th child (counting from 0):
    the root pane for the first child, then the pane made for the
    child. *)
Definition pane_of_child (i : nat) : Handle := Own i.

(** What holds of a splitter after any run of [add_widget] calls. *)
Record chain_inv (cs : list Widget) (self : Container) : Prop := {
  inv_widget : widget self = Own 0;
  inv_children : children self = cs;
  inv_panes : panes self = map Own (seq 1 (length cs - 1));
  inv_made : made self = Nat.max 1 (length cs);
  inv_slot1 : forall i c, cs !! i = Some c ->
      child1 (paned (gtk self) (Own i)) = Some (get_widget c);
  inv_slot2 : forall i, S i < length cs ->
      child2 (paned (gtk self) (Own i)) = Some (Own (S i));
  inv_last : forall i, length cs <= S i ->
      child2 (paned (gtk self) (Own i)) = None;
  inv_fresh : forall i, length cs <= i ->
      child1 (paned (gtk self) (Own i)) = None
}.

End Ops.

(** ** Application *)

Module Application.
Import Py.

(** A top-level window, with the attributes [add_window] stamps on
    it. *)
Record TopLevel := {
  title : option string;
  wid : option string;
  url : option string
}.

Definition TopLevel__init__ (title : option string) : TopLevel :=
  {| title := title; wid := None; url := None |}.

Record Application := {
  window_dict : gmap string TopLevel;
  wincnt : nat
}.

(** [__init__], called with a logger: an empty registry and the counter
    at zero. *)
Definition __init__ : Application :=
  {| window_dict := ∅; wincnt := 0 |}.

(** [add_window(window, wid=None)]: the registry afterwards and the
    window as stamped with its id and an empty url (the back-reference
    [window.app] is left out). *)
Definition add_window (self : Application) (window : TopLevel)
    (wid : option string) : Application * TopLevel :=
  let '(wid, wincnt) :=
    match wid with
    | None => (String.append "win" (format_d (wincnt self)), wincnt self + 1)
    | Some wid => (wid, wincnt self)
    end in
  let window := {| title := title window; wid := Some wid; url := Some "" |} in
  ({| window_dict := <[wid := window]> (window_dict self);
      wincnt := wincnt |}, window).

Definition get_window (self : Application) (wid : string) : PyError + TopLevel :=
  match window_dict self !! wid with
  | Some w => inr w
  | None => inl (KeyError wid)
  end.

Definition has_window (self : Application) (wid : string) : bool :=
  bool_decide (is_Some (window_dict self !! wid)).

Definition make_window (self : Application) (title : option string)
    : Application * TopLevel :=
  let w := TopLevel__init__ title in
  add_window self w None.

(** [get_wids]: the registered ids, in the dict's order. *)
Definition get_wids (self : Application) : list string :=
  (map_to_list (window_dict self)).*1.

(** A run of [make_window] calls: the registry afterwards and the
    windows made, in order. *)
Fixpoint make_windows (titles : list (option string)) (self : Application)
    : Application * list TopLevel :=
  match titles with
  | [] => (self, [])
  | title :: rest =>
      let '(self, w) := make_window self title in
      let '(self, ws) := make_windows rest self in
      (self, w :: ws)
  end.

(** The id [add_window] generates when the counter stands at [n]. *)
Definition auto_wid (n : nat) : string := String.append "win" (format_d n).

End Application.

(** ** StatusBar *)

Module StatusBar.

(** The native side, as far as [set_message] drives it: the message
    stack of the [gtk.Statusbar], newest first, each message with its
    context id, and the timeouts pending in the main loop, each with the
    context id its callback [remove_all] is to clear.  Source ids are
    positive and never reused. *)
Record StatusBar := {
  ctx_id : option nat;              (* self.ctx_id *)
  statustask : option nat;          (* self.statustask *)
  stack : list (nat * string);
  sources : list (nat * nat);
  next_source : nat
}.

(** [get_context_id('status')]: the same id for the same description. *)
Definition status_ctx : nat := 1.

Definition __init__ : StatusBar :=
  {| ctx_id := None; statustask := None; stack := []; sources := [];
     next_source := 1 |}.

(** [self.widget.remove_all(ctx)] *)
Definition remove_all (ctx : nat) (stack : list (nat * string))
    : list (nat * string) :=
  filter (fun m => m.1 <> ctx) stack.

(** [gobject.source_remove(id)] *)
Definition source_remove (id : nat) (sources : list (nat * nat))
    : list (nat * nat) :=
  filter (fun s => s.1 <> id) sources.

Definition set_message (self : StatusBar) (msg_str : string) : StatusBar :=
  (* try: self.widget.remove_all(self.ctx_id) / except: pass *)
  let stack1 :=
    match ctx_id self with
    | Some ctx => remove_all ctx (stack self)
    | None => stack self   (* remove_all(None) raises; the exception is dropped *)
    end in
  let ctx := status_ctx in
  let stack2 := (ctx, msg_str) :: stack1 in
  (* remove message in about 10 seconds *)
  let sources1 :=
    match statustask self with
    | Some task => if (task =? 0)%nat then sources self
                   else source_remove task (sources self)
    | None => sources self
    end in
  let task := next_source self in
  {| ctx_id := Some ctx; statustask := Some task; stack := stack2;
     sources := sources1 ++ [(task, ctx)];
     next_source := S (next_source self) |}.

(** The main loop runs the timeout [id]: its callback clears the
    context, and returning [None] it is not scheduled again. *)
Definition timeout (self : StatusBar) (id : nat) : StatusBar :=
  match list_find (fun s => s.1 = id) (sources self) with
  | Some (_, (_, ctx)) =>
      {| ctx_id := ctx_id self; statustask := statustask self;
         stack := remove_all ctx (stack self);
         sources := source_remove id (sources self);
         next_source := next_source self |}
  | None => self
  end.

(** The message on display: the top of the stack. *)
Definition displayed (self : StatusBar) : option string :=
  snd <$> head (stack self).

Inductive Event :=
| SetMessage (msg_str : string)
| Timeout (id : nat).

Definition step (self : StatusBar) (ev : Event) : StatusBar :=
  match ev with
  | SetMessage msg_str => set_message self msg_str
  | Timeout id => timeout self id
  end.

Definition run (evs : list Event) (self : StatusBar) : StatusBar :=
  foldl step self evs.

(** What every reachable status bar satisfies. *)
Record reachable_inv (self : StatusBar) : Prop := {
  inv_next : 1 <= next_source self;
  inv_ctx : forall c, ctx_id self = Some c -> c = status_ctx;
  inv_unset : ctx_id self = None -> stack self = [];
  inv_stack : forall m, m ∈ stack self -> m.1 = status_ctx;
  inv_sources : sources self = [] \/
                exists task, sources self = [(task, status_ctx)] /\
                             statustask self = Some task /\ task <> 0
}.

End StatusBar.

(** ** Image *)

Module Image.

Inductive EventType :=
| BUTTON_PRESS | _2BUTTON_PRESS | _3BUTTON_PRESS | BUTTON_RELEASE.

#[export] Instance EventType_eq_dec : EqDecision EventType.
Proof. solve_decision. Defined.

Record EventButton := { type : EventType; button : Z }.

Record Image := {
  _action : option string;   (* self._action *)
  menu : option nat          (* self.menu, a menu's native widget *)
}.

Definition __init__ (menu : option nat) : Image :=
  {| _action := None; menu := menu |}.

(** What a handler does besides changing [self._action]. *)
Inductive Effect :=
| activated                          (* make_callback('activated') *)
| popup (menu_w : nat) (button : Z). (* menu_w.popup(..., event.button, event.time) *)

(** Handler of ["button-press-event"]. *)
Definition _cb_redirect1 (self : Image) (event : EventButton)
    : Image * list Effect :=
  if bool_decide (type event = BUTTON_PRESS) then
    if (button event =? 1)%Z then
      ({| _action := Some "click"; menu := menu self |}, [])
    else
      match menu self with
      | Some menu_w =>
          if (button event =? 3)%Z then (self, [popup menu_w (button event)])
          else (self, [])
      | None => (self, [])
      end
  else (self, []).

(** Handler of ["button-release-event"]. *)
Definition _cb_redirect2 (self : Image) (event : EventButton)
    : Image * list Effect :=
  if bool_decide (type event = BUTTON_RELEASE) then
    if (button event =? 1)%Z && bool_decide (_action self = Some "click") then
      ({| _action := None; menu := menu self |}, [activated])
    else (self, [])
  else (self, []).

(** A signal delivered to the event box. *)
Inductive Signal :=
| button_press_event (event : EventButton)
| button_release_event (event : EventButton).

Definition deliver (self : Image) (sig : Signal) : Image * list Effect :=
  match sig with
  | button_press_event event => _cb_redirect1 self event
  | button_release_event event => _cb_redirect2 self event
  end.

(** The signals delivered in turn: the image afterwards and everything
    the handlers did. *)
Fixpoint run (sigs : list Signal) (self : Image) : Image * list Effect :=
  match sigs with
  | [] => (self, [])
  | sig :: rest =>
      let '(self, effs) := deliver self sig in
      let '(self, effs') := run rest self in
      (self, effs ++ effs')
  end.

Definition is_primary_press (sig : Signal) : bool :=
  match sig with
  | button_press_event e =>
      bool_decide (type e = BUTTON_PRESS) && (button e =? 1)%Z
  | button_release_event _ => false
  end.

Definition is_primary_release (sig : Signal) : bool :=
  match sig with
  | button_release_event e =>
      bool_decide (type e = BUTTON_RELEASE) && (button e =? 1)%Z
  | button_press_event _ => false
  end.

#[export] Instance Effect_eq_dec : EqDecision Effect.
Proof. solve_decision. Defined.

(** The number of ['activated'] callbacks among the effects. *)
Definition activations (effs : list Effect) : nat :=
  length (filter (fun e => e = activated) effs).

(** Whether a click is pending. *)
Definition pending (self : Image) : nat :=
  if bool_decide (_action self = Some "click") then 1 else 0.

End Image.

(** ** SaveDialog *)

Module SaveDialog.

(** [path.endswith(suffix)] *)
Fixpoint endswith (path suffix : string) : bool :=
  String.eqb path suffix ||
  match path with
  | EmptyString => false
  | String _ rest => endswith rest suffix
  end.

(** The answers of [self.widget.run()]: the two buttons of the dialog,
    or any other response (the dialog was closed). *)
Inductive Response := RESPONSE_OK | RESPONSE_CANCEL | RESPONSE_OTHER.

Record SaveDialog := {
  selectedfilter : option string;               (* self.selectedfilter *)
  filters : list (string * option string);      (* pattern and name of the filters added *)
  destroyed : bool                              (* self.widget.destroy() was called *)
}.

Definition _add_filter (self : SaveDialog) (selectedfilter : string)
    : SaveDialog :=
  let '(name, selected) :=
    if TreeView.is_substring "png" selectedfilter then
      (Some "Image (*.png)", Some ".png")
    else if TreeView.is_substring "avi" selectedfilter then
      (Some "Movie (*.avi)", Some ".avi")
    else if TreeView.is_substring "npz" selectedfilter then
      (Some "Numpy Compressed Archive (*.npz)", Some ".npz")
    else (None, SaveDialog.selectedfilter self) in
  {| selectedfilter := selected;
     filters := filters self ++ [(selectedfilter, name)];
     destroyed := destroyed self |}.

Definition __init__ (selectedfilter : option string) : SaveDialog :=
  let self := {| selectedfilter := selectedfilter; filters := [];
                 destroyed := false |} in
  match selectedfilter with
  | Some f => _add_filter self f
  | None => self
  end.

Definition destroy (self : SaveDialog) : SaveDialog :=
  {| selectedfilter := selectedfilter self; filters := filters self;
     destroyed := true |}.

(** [get_path], for the response of the dialog and the file name
    chosen in it: the dialog afterwards and the value returned. *)
Definition get_path (self : SaveDialog) (response : Response)
    (filename : string) : SaveDialog * option string :=
  match response with
  | RESPONSE_OK =>
      let path := filename in
      let path :=
        match selectedfilter self with
        | Some ext => if negb (endswith path ext) then String.append path ext
                      else path
        | None => path
        end in
      (destroy self, Some path)
  | RESPONSE_CANCEL => (destroy self, None)
  | RESPONSE_OTHER => (self, None)
  end.

(** The extension [_add_filter] settles on for a filter pattern. *)
Definition extension_of (pattern : string) : string :=
  if TreeView.is_substring "png" pattern then ".png"
  else if TreeView.is_substring "avi" pattern then ".avi"
  else if TreeView.is_substring "npz" pattern then ".npz"
  else pattern.

End SaveDialog.

(** ** Module functions *)

Module Functions.
Import Py.

(** [c.lower()], [c.isalpha()], [c.isdigit()] for a byte of a Python 2
    [str] in the C locale. *)
Definition is_upper (c : ascii) : bool :=
  (65 <=? nat_of_ascii c)%nat && (nat_of_ascii c <=? 90)%nat.
Definition is_lower (c : ascii) : bool :=
  (97 <=? nat_of_ascii c)%nat && (nat_of_ascii c <=? 122)%nat.
Definition lower (c : ascii) : ascii :=
  if is_upper c then ascii_of_nat (nat_of_ascii c + 32) else c.
Definition isalpha (c : ascii) : bool := is_upper c || is_lower c.
Definition isdigit (c : ascii) : bool :=
  (48 <=? nat_of_ascii c)%nat && (nat_of_ascii c <=? 57)%nat.

Definition underscore : ascii := "_"%char.

(** The body of the loop of [name_mangle], for one character of
    [name.lower()]. *)
Definition mangle_char (c : ascii) : ascii :=
  if negb (isalpha c || isdigit c || Ascii.eqb c underscore) then underscore
  else c.

Fixpoint str_map (f : ascii -> ascii) (s : string) : string :=
  match s with
  | EmptyString => EmptyString
  | String c rest => String (f c) (str_map f rest)
  end.

Definition name_mangle (name pfx : string) : string :=
  String.append pfx (str_map mangle_char (str_map lower name)).

(** The characters [name_mangle] produces. *)
Definition is_name_char (c : ascii) : bool :=
  is_lower c || isdigit c || Ascii.eqb c underscore.

Fixpoint str_forall (P : ascii -> bool) (s : string) : bool :=
  match s with
  | EmptyString => true
  | String c rest => P c && str_forall P rest
  end.

(** The wrappers [make_widget] can make, with what their constructors
    were given; a box, a slider or a toolbar is the object its
    constructor returns.  Alignments are in hundredths. *)
Inductive Made :=
| Label_ (text : string) (alignment : option (Z * Z))
| TextEntry_
| TextEntrySet_
| ComboBox_
| SpinBox_ (dtype_float : bool)
| Box_ (box : ContainerBase.Container)
| Slider_ (slider : Slider.Leaf)
| CheckBox_ (text : string)
| RadioButton_ (text : string)
| ToggleButton_ (text : string)
| Button_ (text : string)
| TextArea_ (editable : bool)
| Toolbar_ (toolbar : ContainerBase.Container)
| Menubar_.

Definition construct {A} (r : PyError + A) (f : A -> Made) : PyError + Made :=
  match r with
  | inr a => inr (f a)
  | inl e => inl e
  end.

Definition make_widget (title wtype : string) : PyError + Made :=
  if String.eqb wtype "label" then inr (Label_ title (Some (95, 50)%Z))
  else if String.eqb wtype "llabel" then inr (Label_ title (Some (5, 95)%Z))
  else if String.eqb wtype "entry" then inr TextEntry_
  else if String.eqb wtype "entryset" then inr TextEntrySet_
  else if String.eqb wtype "combobox" then inr ComboBox_
  else if String.eqb wtype "spinbutton" then inr (SpinBox_ false)
  else if String.eqb wtype "spinfloat" then inr (SpinBox_ true)
  else if String.eqb wtype "vbox" then construct (Box.__init__ "vertical") Box_
  else if String.eqb wtype "hbox" then construct (Box.__init__ "horizontal") Box_
  else if String.eqb wtype "hscale"
  then construct (Slider.__init__ "horizontal" false) Slider_
  else if String.eqb wtype "vscale"
  then construct (Slider.__init__ "vertical" false) Slider_
  else if String.eqb wtype "checkbutton" then inr (CheckBox_ title)
  else if String.eqb wtype "radiobutton" then inr (RadioButton_ title)
  else if String.eqb wtype "togglebutton" then inr (ToggleButton_ title)
  else if String.eqb wtype "button" then inr (Button_ title)
  else if String.eqb wtype "spacer" then inr (Label_ "" None)
  else if String.eqb wtype "textarea" then inr (TextArea_ true)
  else if String.eqb wtype "toolbar"
  then construct (Toolbar.__init__ "horizontal") Toolbar_
  else if String.eqb wtype "menubar" then inr Menubar_
  else inl (ValueError (String.append "Bad wtype=" wtype)).

(** [title[:-1]] *)
Fixpoint str_init (s : string) : string :=
  match s with
  | EmptyString => EmptyString
  | String c rest =>
      match rest with
      | EmptyString => EmptyString
      | String _ _ => String c (str_init rest)
      end
  end.

(** What [build_info] has put together so far: the widgets attached to
    the table, each with its column and row, and the bunch of widgets
    by name. *)
Record Info := {
  attached : list (Made * nat * nat);
  wb : gmap string Made
}.

(** The name a widget is filed under. *)
Definition bunch_name (title : string) : string :=
  if negb (SaveDialog.endswith title ":") then name_mangle title ""
  else name_mangle (String.append "lbl_" (str_init title)) "".

(** The body of the [while] loop of [build_info]. *)
Definition build_cell (tup : list string) (row col : nat) (info : Info)
    : PyError + Info :=
  let idx := col * 2 in
  if (idx <? length tup)%nat then
    match take 2 (drop idx tup) with
    | [title; wtype] =>
        let name := bunch_name title in
        match make_widget title wtype with
        | inr w => inr {| attached := attached info ++ [(w, col, row)];
                          wb := <[name := w]> (wb info) |}
        | inl e => inl e
        end
    | _ => inl (ValueError "need more than 1 value to unpack")
    end
  else inr info.

Fixpoint build_row (tup : list string) (row : nat) (cols : list nat)
    (info : Info) : PyError + Info :=
  match cols with
  | [] => inr info
  | col :: cols' =>
      match build_cell tup row col info with
      | inr info => build_row tup row cols' info
      | inl e => inl e
      end
  end.

Fixpoint build_rows (captions : list (list string)) (row numcols : nat)
    (info : Info) : PyError + Info :=
  match captions with
  | [] => inr info
  | tup :: rest =>
      match build_row tup row (seq 0 numcols) info with
      | inr info => build_rows rest (S row) numcols info
      | inl e => inl e
      end
  end.

(** What [hadjust] returns. *)
#[warnings="-register-all"]
Inductive Layout :=
| Wrapped (table : list (Made * nat * nat))
| VBoxOf (children : list (Layout * Z))
| Spacer.

Definition hadjust (w : Layout) (orientation : string) : Layout :=
  if negb (String.eqb orientation "horizontal") then w
  else VBoxOf [(w, 0%Z); (Spacer, 1%Z)].


Definition build_info (captions : list (list string)) (orientation : string)
    : PyError + (Layout * gmap string Made) :=
  let numcols := foldl (fun acc tup => Nat.max acc (length tup)) 0 captions in
  if negb (numcols mod 2 =? 0)%nat
  then inl (ValueError "Column spec is not an even number")
  else
    let numcols := numcols / 2 in
    match build_rows captions 0 numcols {| attached := []; wb := ∅ |} with
    | inr info => inr (hadjust (Wrapped (attached info)) orientation, wb info)
    | inl e => inl e
    end.




(** The type tags [make_widget] knows. *)
Definition known_wtypes : list string :=
  ["label"; "llabel"; "entry"; "entryset"; "combobox"; "spinbutton";
   "spinfloat"; "vbox"; "hbox"; "hscale"; "vscale"; "checkbutton";
   "radiobutton"; "togglebutton"; "button"; "spacer"; "textarea";
   "toolbar"; "menubar"].

(** A caption [build_info] can lay out: titles and known type tags in
    turn. *)
Definition caption_ok (tup : list string) : Prop :=
  Nat.Even (length tup) /\
  forall i wtype, tup !! (i * 2 + 1) = Some wtype -> wtype ∈ known_wtypes.

End Functions.

(** * Proofs *)

(** ** TextArea *)

Section TextAreaProofs.
Import TextArea.

Lemma get_line_count_pos buf : 1 <= get_line_count buf.
Proof.
  induction buf as [|c rest IH]; simpl; [lia|].
  destruct (Ascii.eqb c LF); lia.
Qed.

Lemma lines_length buf : length (lines buf) = get_line_count buf.
Proof.
  induction buf as [|c rest IH]; simpl; [reflexivity|].
  destruct (Ascii.eqb c LF); simpl; [rewrite IH; reflexivity|].
  rewrite <- IH. destruct (lines rest) as [|l ls]; [|reflexivity].
  pose proof (get_line_count_pos rest). simpl in IH. lia.
Qed.

Lemma line_start_Some buf n :
  n < get_line_count buf -> is_Some (line_start buf n).
Proof.
  revert n. induction buf as [|c rest IH]; intros n Hn; simpl in *.
  - destruct n; [eexists; reflexivity | lia].
  - destruct n as [|n']; [eexists; reflexivity|].
    destruct (Ascii.eqb c LF).
    + destruct (IH n') as [o Ho]; [lia|]. rewrite Ho. eexists; reflexivity.
    + destruct (IH (S n')) as [o Ho]; [lia|]. rewrite Ho. eexists; reflexivity.
Qed.

Lemma str_take_0 buf : str_take 0 buf = EmptyString.
Proof. destruct buf; reflexivity. Qed.

Lemma str_drop_0 buf : str_drop 0 buf = buf.
Proof. destruct buf; reflexivity. Qed.

Lemma delete_from_start e buf : delete 0 e buf = str_drop e buf.
Proof.
  unfold delete. rewrite Nat.min_0_l, Nat.max_0_l, str_take_0. reflexivity.
Qed.

(** Dropping the text before the start of line [n] drops the first [n]
    lines and nothing else. *)
Lemma str_drop_line_start buf n offset :
  line_start buf n = Some offset ->
  lines (str_drop offset buf) = drop n (lines buf).
Proof.
  revert n offset. induction buf as [|c rest IH]; intros n offset H.
  - destruct n; simpl in H; [|discriminate].
    injection H as <-. reflexivity.
  - destruct n as [|n'].
    + simpl in H. injection H as <-. reflexivity.
    + cbn [line_start] in H.
      destruct (line_start rest (if Ascii.eqb c LF then n' else S n'))
        as [o|] eqn:E; [|discriminate].
      simpl in H. injection H as <-.
      cbn [str_drop lines]. rewrite (IH _ _ E).
      destruct (Ascii.eqb c LF); [reflexivity|].
      destruct (lines rest) as [|l ls] eqn:El; [|reflexivity].
      pose proof (lines_length rest) as Hl. rewrite El in Hl.
      pose proof (get_line_count_pos rest). simpl in Hl. lia.
Qed.

Lemma housekeeping_trims tk self :
  (1 <= histlimit self)%Z ->
  (Z.of_nat (get_line_count (buffer self)) > histlimit self)%Z ->
  let self' := _history_housekeeping tk self in
  lines (buffer self')
  = drop (get_line_count (buffer self) - Z.to_nat (histlimit self))
         (lines (buffer self))
  /\ Z.of_nat (get_line_count (buffer self')) = histlimit self
  /\ histlimit self' = histlimit self.
Proof.
  intros HL Hgt. unfold _history_housekeeping.
  set (nl := get_line_count (buffer self)) in *.
  replace (Z.of_nat nl >? histlimit self)%Z with true by lia.
  replace (Z.to_nat (Z.of_nat nl - histlimit self))
    with (nl - Z.to_nat (histlimit self)) by lia.
  set (rm := nl - Z.to_nat (histlimit self)).
  assert (rm < nl) as Hrm by (unfold rm; lia).
  destruct (line_start_Some (buffer self) rm Hrm) as [o Ho].
  cbn zeta.
  assert (get_iter_at_line tk (buffer self) rm = o) as ->.
  { unfold get_iter_at_line. rewrite Ho. reflexivity. }
  assert (get_iter_at_line tk (buffer self) 0 = 0) as ->.
  { unfold get_iter_at_line. destruct (buffer self); reflexivity. }
  rewrite delete_from_start. cbn [buffer set_buffer histlimit].
  pose proof (str_drop_line_start _ _ _ Ho) as Hd.
  split; [exact Hd|]. split; [|reflexivity].
  rewrite <- lines_length, Hd, length_drop, lines_length.
  fold nl. unfold rm. lia.
Qed.

(** C5. With a line limit [L >= 1], an [append_text] whose text brings
    the buffer above [L] lines leaves exactly [L] lines, which are the
    last [L] lines of the old text followed by the new text (the oldest
    lines are the ones dropped); with the limit [0] an append only adds
    the text and trims nothing.  This holds for either toolkit
    behaviour on lines past the end. *)
Theorem C5_append_text_limit tk (self : TextArea) (text : string)
    (autoscroll : bool) :
  let appended := String.append (buffer self) text in
  let self' := append_text tk self text autoscroll in
  ((1 <= histlimit self)%Z ->
   (Z.of_nat (get_line_count appended) > histlimit self)%Z ->
   Z.of_nat (get_line_count (buffer self')) = histlimit self /\
   lines (buffer self')
   = drop (get_line_count appended - Z.to_nat (histlimit self))
          (lines appended)) /\
  (histlimit self = 0%Z -> buffer self' = appended).
Proof.
  cbn zeta. split.
  - intros HL Hgt. unfold append_text.
    cbn [set_buffer histlimit buffer].
    replace (histlimit self >? 0)%Z with true by lia.
    pose proof (housekeeping_trims tk
      (set_buffer (String.append (buffer self) text) self) HL Hgt)
      as (Hl & Hc & _).
    cbn zeta in Hl, Hc. cbn [set_buffer histlimit buffer] in Hl, Hc.
    destruct autoscroll; cbn [negb buffer]; split; assumption.
  - intros H0. unfold append_text. cbn [set_buffer histlimit buffer].
    rewrite H0. simpl. destruct autoscroll; reflexivity.
Qed.

Lemma C5_append_text_limit_witness :
  let self := {| buffer := "a"; histlimit := 2; scrolled_to := None |} in
  let text := String LF "b" +:+ String LF "c" in
  let self' := append_text StartOfLastLine self text true in
  (1 <= histlimit self)%Z /\
  (Z.of_nat (get_line_count (String.append (buffer self) text))
   > histlimit self)%Z /\
  Z.of_nat (get_line_count (buffer self')) = 2%Z /\
  lines (buffer self') = ["b"; "c"].
Proof.
  cbn zeta.
  assert (1 <= 2)%Z as H1 by lia.
  assert (Z.of_nat (get_line_count
            (String.append "a" (String LF "b" +:+ String LF "c"))) > 2)%Z
    as H2 by (vm_compute; reflexivity).
  split; [exact H1|]. split; [exact H2|].
  exact (proj1 (C5_append_text_limit StartOfLastLine
                  {| buffer := "a"; histlimit := 2; scrolled_to := None |}
                  (String LF "b" +:+ String LF "c") true) H1 H2).
Defined.

Lemma str_drop_length buf : str_drop (String.length buf) buf = EmptyString.
Proof. induction buf; simpl; [reflexivity | assumption]. Qed.








End TextAreaProofs.

(** ** ComboBox *)

Section ComboBoxProofs.
Import ComboBox.

Lemma str_gt_flip a b : Py.str_gt a b = true -> str_le b a.
Proof.
  unfold str_le, Py.str_gt. rewrite (String.compare_antisym b a).
  destruct (String.compare a b); simpl; congruence.
Qed.

Lemma insert_alpha_loop_spec text pre suf j :
  (pre = [] -> j = 0) ->
  (pre <> [] -> S j = length pre) ->
  insert_alpha_loop (pre ++ suf) text (seq (length pre) (length suf)) j
  = pre ++ insert_before_greater text suf.
Proof.
  revert pre j. induction suf as [|row suf IH]; intros pre j H0 H1;
    cbn [insert_alpha_loop insert_before_greater seq length].
  - unfold liststore_insert. rewrite app_nil_r.
    destruct pre as [|p pre].
    + rewrite (H0 eq_refl). reflexivity.
    + assert (S j = length (p :: pre)) as Hj by (apply H1; discriminate).
      replace (j + 1) with (length (p :: pre)) by lia.
      rewrite take_ge, drop_ge by lia. reflexivity.
  - rewrite list_lookup_middle by reflexivity.
    destruct (Py.str_gt row text).
    + unfold liststore_insert.
      rewrite take_app_length, drop_app_length. reflexivity.
    + specialize (IH (pre ++ [row]) (length pre)).
      rewrite <- app_assoc in IH. simpl in IH.
      rewrite length_app in IH. simpl in IH.
      replace (length pre + 1) with (S (length pre)) in IH by lia.
      rewrite IH.
      * rewrite <- app_assoc. reflexivity.
      * intros E. destruct pre; discriminate.
      * intros _. lia.
Qed.

Lemma insert_alpha_spec model text :
  insert_alpha model text = insert_before_greater text model.
Proof.
  unfold insert_alpha.
  apply (insert_alpha_loop_spec text [] model 0); [reflexivity | congruence].
Qed.

Lemma str_le_compare a b : str_le a b <-> String.compare a b <> Gt.
Proof.
  unfold str_le, Py.str_gt. destruct (String.compare a b); split; congruence.
Qed.

Lemma ascii_compare_lt_trans x y z :
  Ascii.compare x y = Lt -> Ascii.compare y z = Lt -> Ascii.compare x z = Lt.
Proof.
  unfold Ascii.compare. rewrite !N.compare_lt_iff. lia.
Qed.

(** The order of Python 2 strings is transitive. *)
Lemma str_le_trans a b c : str_le a b -> str_le b c -> str_le a c.
Proof.
  rewrite !str_le_compare. revert b c.
  induction a as [|x a IH]; intros [|y b] [|z c]; simpl; try congruence.
  destruct (Ascii.compare x y) eqn:Exy; try congruence;
    destruct (Ascii.compare y z) eqn:Eyz; try congruence; intros Hab Hbc.
  - apply Ascii.compare_eq_iff in Exy, Eyz. subst y z.
    rewrite (proj2 (N.compare_eq_iff _ _) eq_refl
             : Ascii.compare x x = Eq).
    exact (IH b c Hab Hbc).
  - apply Ascii.compare_eq_iff in Exy. subst y. rewrite Eyz. congruence.
  - apply Ascii.compare_eq_iff in Eyz. subst z. rewrite Exy. congruence.
  - rewrite (ascii_compare_lt_trans x y z Exy Eyz). congruence.
Qed.

Lemma insert_before_greater_perm text model :
  insert_before_greater text model ≡ₚ text :: model.
Proof.
  induction model as [|r rest IH]; simpl; [reflexivity|].
  destruct (Py.str_gt r text); [reflexivity|].
  rewrite IH. apply Permutation_swap.
Qed.

Lemma insert_before_greater_sorted text model :
  StronglySorted str_le model ->
  StronglySorted str_le (insert_before_greater text model).
Proof.
  induction 1 as [|row rest Hs IH Hall]; simpl.
  - repeat constructor.
  - destruct (Py.str_gt row text) eqn:E.
    + pose proof (str_gt_flip _ _ E) as Hle.
      constructor; [constructor; assumption|].
      constructor; [exact Hle|].
      eapply Forall_impl; [exact Hall|].
      intros r Hr. exact (str_le_trans _ _ _ Hle Hr).
    + constructor; [exact IH|].
      rewrite insert_before_greater_perm. constructor; [exact E | exact Hall].
Qed.

Lemma insert_all_sorted texts model :
  StronglySorted str_le model -> StronglySorted str_le (insert_all texts model).
Proof.
  revert model. induction texts as [|t ts IH]; intros model Hs; simpl.
  - exact Hs.
  - apply IH. rewrite insert_alpha_spec.
    apply insert_before_greater_sorted, Hs.
Qed.

Lemma insert_all_perm texts model : insert_all texts model ≡ₚ model ++ texts.
Proof.
  revert model. induction texts as [|t ts IH]; intros model; simpl.
  - rewrite app_nil_r. reflexivity.
  - rewrite IH, insert_alpha_spec, insert_before_greater_perm.
    rewrite (Permutation_middle model ts t). reflexivity.
Qed.

(** C4. Whatever strings are inserted with [insert_alpha] into an empty
    combo box, and in whatever order, reading the entries back in order
    gives an ascending sequence: no entry is greater, in the order of
    Python 2 strings, than any entry after it.  Equal texts are all
    kept: the entries are the inserted strings, rearranged. *)
Theorem C4_insert_alpha_sorted (texts : list string) :
  StronglySorted str_le (insert_all texts []) /\
  Sorted str_le (insert_all texts []) /\
  insert_all texts [] ≡ₚ texts.
Proof.
  assert (StronglySorted str_le (insert_all texts [])) as H
    by (apply insert_all_sorted; constructor).
  split; [exact H|]. split; [apply StronglySorted_Sorted, H|].
  apply (insert_all_perm texts []).
Qed.

End ComboBoxProofs.

(** ** TreeView *)

Section TreeViewProofs.
Import Py TreeView.

Lemma branches_top_append model p v :
  branches_top model ->
  (match v with Branch _ => p = None | Row _ => True end) ->
  branches_top (append p v model).1.
Proof.
  intros Hm Hv. unfold append, branches_top. simpl.
  apply Forall_app. split; [exact Hm|]. constructor; [exact Hv | constructor].
Qed.

Lemma _set_subtree_branches_top :
  forall node columns level parent_item key model,
    branches_top model ->
    branches_top (_set_subtree columns level parent_item key node model).1.
Proof.
  fix IH 1. intros node columns level parent_item key model Hm.
  destruct node as [s | b | items].
  - (* a str *)
    cbn [_set_subtree has_terminal lift bind].
    destruct (is_substring "__terminal__" s).
    + destruct (row_values (PStr s) columns) as [e | l]; [exact Hm|].
      unfold bind, append, ret. simpl.
      apply Forall_app. split; [exact Hm|]. repeat constructor.
    + unfold bind, append. simpl.
      assert (branches_top (model ++ [{| parent := None; value := Branch key |}]))
        by (apply Forall_app; split; [exact Hm | repeat constructor]).
      destruct s; assumption.
  - (* a bool *)
    exact Hm.
  - (* a dict *)
    cbn [_set_subtree has_terminal lift bind].
    destruct (bool_decide (is_Some (dict_get items "__terminal__"))).
    + destruct (row_values (PDict items) columns) as [e | l]; [exact Hm|].
      unfold bind, append, ret. simpl.
      apply Forall_app. split; [exact Hm|]. repeat constructor.
    + unfold bind at 1, append. cbn [fst snd].
      assert (branches_top (model ++ [{| parent := None; value := Branch key |}]))
        as Hm' by (apply Forall_app; split; [exact Hm | repeat constructor]).
      generalize (Some (length model)).
      revert Hm'.
      generalize (model ++ [{| parent := None; value := Branch key |}]).
      induction items as [|[k child] rest IHrest]; intros m Hm' item.
      * exact Hm'.
      * unfold bind.
        pose proof (IH child columns (level + 1) item k m Hm') as Hc.
        destruct (_set_subtree columns (level + 1) item k child m)
          as [m1 [e | []]]; [exact Hc|].
        apply IHrest. exact Hc.
Qed.

(** Whatever mapping [set_tree] is given, no branch row of the model it
    installs has a parent: a branch met under another branch is appended
    at top level. *)
Lemma set_tree_branches_top self tree_dict :
  branches_top (model self) ->
  branches_top (model (set_tree self tree_dict).1).
Proof.
  intros Hself. unfold set_tree.
  assert (forall items m, branches_top m ->
            branches_top (for_each items
              (fun item => _set_subtree (columns self) 0 None item.1 item.2) m).1)
    as H.
  { induction items as [|[k v] rest IHr]; intros m Hm; [exact Hm|].
    cbn [for_each]. unfold bind.
    pose proof (_set_subtree_branches_top v (columns self) 0 None k m Hm) as Hc.
    cbn [fst snd].
    destruct (_set_subtree (columns self) 0 None k v m) as [m1 [e | []]];
      [exact Hc|].
    apply IHr, Hc. }
  specialize (H tree_dict [] (Forall_nil_2 _)).
  destruct (for_each tree_dict _ []) as [m [e | []]]; [exact Hself | exact H].
Qed.

(** C3 (fails in the code). For the mapping [{"a": {"b": {"x": ...}}}]
    the model holds the branch ["b"] as a second top-level row, next to
    ["a"] and not beneath it: the only row with a parent is the terminal
    row ["x"], under ["b"]. *)
Theorem C3_nested_branch_is_top_level (auto_expand sortable : bool) :
  let view := set_headers (__init__ auto_expand sortable) ["Name"] in
  (set_tree view nested_tree).2 = inr tt /\
  model (set_tree view nested_tree).1
  = [ {| parent := None; value := Branch "a" |};
      {| parent := None; value := Branch "b" |};
      {| parent := Some 1; value := Row [PStr "x"] |} ] /\
  children_of (model (set_tree view nested_tree).1) (Some 0) = [].
Proof. destruct auto_expand, sortable; repeat split. Qed.

(** A row without a parent makes no callback. *)
Lemma _cb_redirect_top_level self path child :
  get_iter (model self) path = inr child ->
  iter_parent (model self) child = None ->
  _cb_redirect self path = inr None.
Proof. intros Hi Hp. unfold _cb_redirect. rewrite Hi, Hp. reflexivity. Qed.

(** C8. After [set_headers(["Name", "Value"])] and [set_tree] of the
    example, the model is the branch ["g1"] with the row [["x", "1"]]
    under it; moving the cursor to that row makes one ['selected']
    callback with [("g1", "x")], and moving it to ["g1"] makes none. *)
Theorem C8_selected_event (auto_expand sortable : bool) :
  let view := example_view auto_expand sortable in
  (set_tree (set_headers (__init__ auto_expand sortable) ["Name"; "Value"])
            example_tree).2 = inr tt /\
  model view
  = [ {| parent := None; value := Branch "g1" |};
      {| parent := Some 0; value := Row [PStr "x"; PStr "1"] |} ] /\
  _cb_redirect view [0; 0]
  = inr (Some {| top_name := Branch "g1"; item_name := PStr "x" |}) /\
  _cb_redirect view [0] = inr None.
Proof. destruct auto_expand, sortable; repeat split. Qed.

End TreeViewProofs.

(** ** Containers *)

Section ContainerProofs.
Import Py Gtk ContainerBase Ops.

Lemma remove_not_child (self : Container) (w : Widget) :
  w ∉ children self -> remove w self = (self, inl NotAChildError).
Proof.
  intros Hw. unfold remove, bind, get, raise.
  rewrite bool_decide_eq_false_2 by exact Hw. reflexivity.
Qed.

Lemma remove_child (self : Container) (w : Widget) :
  w ∈ children self ->
  (remove w self).2 = inr tt /\
  children (remove w self).1 = list_remove w (children self).
Proof.
  intros Hw. unfold remove, bind, get.
  rewrite bool_decide_eq_true_2 by exact Hw. split; reflexivity.
Qed.

Lemma list_remove_absent w l : w ∉ l -> list_remove w l = l.
Proof.
  induction l as [|y l IH]; intros Hw; simpl; [reflexivity|].
  apply not_elem_of_cons in Hw as [Hne Hw].
  rewrite bool_decide_eq_false_2 by congruence.
  rewrite IH by exact Hw. reflexivity.
Qed.

Lemma delete_first_list_remove w l : delete_first w l = list_remove w l.
Proof.
  unfold delete_first. induction l as [|y l IH]; [reflexivity|].
  cbn [list_find list_remove]. destruct (decide (y = w)) as [E | E].
  - rewrite bool_decide_eq_true_2 by exact E. reflexivity.
  - rewrite bool_decide_eq_false_2 by exact E.
    destruct (list_find (fun x => x = w) l) as [[i x]|]; simpl in *;
      f_equal; exact IH.
Qed.

Lemma remove_children (self : Container) (w : Widget) :
  children (remove w self).1 = delete_first w (children self).
Proof.
  rewrite delete_first_list_remove.
  destruct (decide (w ∈ children self)) as [Hin | Hout].
  - apply remove_child, Hin.
  - rewrite remove_not_child, list_remove_absent by exact Hout. reflexivity.
Qed.

Lemma for_each_remove_snapshot (l : list Widget) :
  forall self : Container, children self = l ->
    (for_each l remove self).2 = inr tt /\
    children (for_each l remove self).1 = [].
Proof.
  induction l as [|a t IH]; intros self Hc.
  - split; [reflexivity | exact Hc].
  - cbn [for_each]. unfold bind.
    assert (a ∈ children self) as Hin by (rewrite Hc; left).
    destruct (remove_child self a Hin) as [Hok Hch].
    destruct (remove a self) as [s1 r1]. cbn [fst snd] in *. subst r1.
    apply IH. rewrite Hch, Hc. simpl.
    rewrite bool_decide_eq_true_2 by reflexivity. reflexivity.
Qed.

Lemma remove_all_empties (self : Container) :
  (remove_all self).2 = inr tt /\ children (remove_all self).1 = [].
Proof.
  unfold remove_all, bind, get. apply for_each_remove_snapshot. reflexivity.
Qed.

Lemma add_widget_appends (a : AddWidget) (self : Container) :
  reaches_add_ref a = true ->
  (add_widget a self).2 = inr tt /\
  children (add_widget a self).1 = children self ++ [added a].
Proof.
  destruct a; cbn [add_widget added reaches_add_ref]; intros Hr;
    try discriminate; try (split; reflexivity).
  unfold Splitter.add_widget, bind, add_ref, modify, get. cbn [fst snd].
  cbn [set_children children].
  destruct (length (children self ++ [child]) =? 1)%nat.
  - split; reflexivity.
  - unfold Splitter._get_pane, bind, get. cbn [orientation set_children].
    destruct (bool_decide (orientation self = Some "horizontal"));
      split; reflexivity.
Qed.

(** The [add_widget] of a Menubar raises at the look-up of [addMenu],
    before anything is changed. *)
Lemma Menubar_add_widget_raises (child : Widget) (self : Container) :
  exists msg,
    Menubar.add_widget child self = (self, inl (AttributeError msg)).
Proof. eexists. reflexivity. Qed.

Lemma add_widget_no_add_ref (a : AddWidget) (self : Container) :
  reaches_add_ref a = false ->
  (add_widget a self).1 = self /\
  exists msg, (add_widget a self).2 = inl (AttributeError msg).
Proof.
  destruct a; cbn [reaches_add_ref]; intros Hr; try discriminate.
  split; [reflexivity | eexists; reflexivity].
Qed.

Lemma run_op_children (op : Op) (self : Container) :
  children (run_op op self).1 = simulate (effective [op]) (children self).
Proof.
  destruct op as [a | w |]; cbn [run_op effective].
  - destruct (reaches_add_ref a) eqn:Hr; cbn [simulate].
    + apply add_widget_appends, Hr.
    + rewrite (proj1 (add_widget_no_add_ref a self Hr)). reflexivity.
  - apply remove_children.
  - apply remove_all_empties.
Qed.

Lemma effective_cons op ops :
  effective (op :: ops) = effective [op] ++ effective ops.
Proof.
  destruct op as [a | w |]; cbn [effective]; [|reflexivity..].
  destruct (reaches_add_ref a); reflexivity.
Qed.

Lemma simulate_app ops1 ops2 l :
  simulate (ops1 ++ ops2) l = simulate ops2 (simulate ops1 l).
Proof.
  revert l. induction ops1 as [|op ops1 IH]; intros l; [reflexivity|].
  destruct op; cbn [app simulate]; apply IH.
Qed.

(** The child list after a run of calls: the simulation of the calls
    that got as far as the list. *)
Lemma exec_children_effective (ops : list Op) (self : Container) :
  children (exec ops self) = simulate (effective ops) (children self).
Proof.
  revert self. induction ops as [|op ops IH]; intros self; [reflexivity|].
  cbn [exec]. rewrite IH, run_op_children, (effective_cons op ops).
  rewrite simulate_app. reflexivity.
Qed.

(** A sequence with no [add_widget] of a Menubar is left as it is. *)
Lemma effective_id (ops : list Op) :
  Forall (fun op => forall a, op = Add a -> reaches_add_ref a = true) ops ->
  effective ops = ops.
Proof.
  induction 1 as [|op ops Hop Hops IH]; [reflexivity|].
  destruct op as [a | w |]; cbn [effective]; rewrite IH; [|reflexivity..].
  rewrite (Hop a eq_refl). reflexivity.
Qed.

(** C1. For every sequence of [add_widget], [remove] and [remove_all]
    calls made on a container, the child list after the calls is the
    list obtained by running on an ordinary ordered collection the calls
    of the sequence other than the [add_widget] calls of a Menubar: add
    appends the child at the end, remove deletes the first matching
    child (and changes nothing when there is none, the call having
    raised), [remove_all] leaves the collection empty.  For a Box, a
    TabWidget, a Splitter, a GridBox, a Toolbar and a Menu that is the
    whole sequence.  The [add_widget] of a Menubar does not append: it
    raises [AttributeError] at [self.widget.addMenu], before [add_ref],
    and leaves the container as it was, so that after the single call
    [add_widget(child)] the child list differs from the simulated one,
    which has [child] at its end. *)
Theorem C1_children_refine_list (ops : list Op) (self : Container)
    (child : Widget) :
  children (exec ops self) = simulate (effective ops) (children self) /\
  (exists msg, (Menubar.add_widget child self).2 = inl (AttributeError msg)) /\
  (Menubar.add_widget child self).1 = self /\
  children (exec [Add (MenubarAdd child)] self) = children self /\
  simulate [Add (MenubarAdd child)] (children self) = children self ++ [child] /\
  children (exec [Add (MenubarAdd child)] self)
  <> simulate [Add (MenubarAdd child)] (children self).
Proof.
  split; [apply exec_children_effective|].
  split; [eexists; reflexivity|]. split; [reflexivity|].
  split; [reflexivity|]. split; [reflexivity|].
  change (children self <> children self ++ [child]). intros H.
  apply (f_equal length) in H. rewrite length_app in H.
  cbn [length] in H. lia.
Qed.

(** C6. [remove] is the method of [ContainerBase], which no container
    class overrides: whatever the container, removing a widget that is
    not in its child list raises the error "Widget is not a child of
    this container" and leaves the container, its child list included,
    as it was. *)
Theorem C6_remove_not_a_child (self : Container) (w : Widget) :
  w ∉ children self ->
  (remove w self).2 = inl NotAChildError /\
  (remove w self).1 = self /\
  children (remove w self).1 = children self.
Proof.
  intros Hw. rewrite (remove_not_child self w Hw). repeat split.
Qed.

Lemma C6_remove_not_a_child_witness :
  let self := exec [Add (BoxAdd {| oid := 1; handle := 11 |} 0)]
                   (ContainerBase.__init__ HBox) in
  let w := {| oid := 2; handle := 12 |} in
  (w ∉ children self) /\
  (remove w self).2 = inl NotAChildError /\
  (remove w self).1 = self /\
  children (remove w self).1 = children self.
Proof.
  cbn zeta.
  assert ({| oid := 2; handle := 12 |}
          ∉ children (exec [Add (BoxAdd {| oid := 1; handle := 11 |} 0)]
                           (ContainerBase.__init__ HBox))) as Hw.
  { apply (bool_decide_unpack _). vm_compute. exact I. }
  split; [exact Hw|].
  apply (C6_remove_not_a_child _ _ Hw).
Defined.

End ContainerProofs.

(** ** Splitter *)

Section SplitterProofs.
Import Py Gtk ContainerBase Ops.

Ltac splitter_step :=
  cbn [children widget ContainerBase.orientation panes made gtk app
       length Nat.eqb last default fst snd].

Lemma _get_pane_run (self : Container) :
  Splitter._get_pane self
  = new (if bool_decide (orientation self = Some "horizontal")
         then HPaned else VPaned) self.
Proof.
  unfold Splitter._get_pane, bind, get.
  destruct (bool_decide (orientation self = Some "horizontal")); reflexivity.
Qed.

Lemma Splitter_init_run (o : string) :
  Splitter.__init__ o = inr (Splitter_root o).
Proof.
  unfold Splitter.__init__. rewrite _get_pane_run. reflexivity.
Qed.

(** The container after [Splitter.add_widget]. *)
Lemma Splitter_add_widget_run (child : Widget) (self : Container) :
  (Splitter.add_widget child self).1
  = let cls := if bool_decide (orientation self = Some "horizontal")
               then HPaned else VPaned in
    let w := Own (made self) in
    if (length (children self ++ [child]) =? 1)%nat then
      {| widget := widget self; children := children self ++ [child];
         orientation := orientation self; panes := panes self;
         made := made self;
         gtk := gtk self ++ [(widget self, pack1 (get_widget child));
                             (widget self, show_all)] |}
    else
      {| widget := widget self; children := children self ++ [child];
         orientation := orientation self; panes := panes self ++ [w];
         made := S (made self);
         gtk := gtk self
                ++ [(w, New cls); (w, pack1 (get_widget child));
                    (default (widget self) (last (panes self)), pack2 w);
                    (widget self, show_all)] |}.
Proof.
  unfold Splitter.add_widget, bind, add_ref, modify, get. cbn [fst snd].
  cbn [set_children children widget panes].
  destruct (length (children self ++ [child]) =? 1)%nat.
  - unfold call, modify. cbn. rewrite <- app_assoc. reflexivity.
  - rewrite _get_pane_run. unfold new, call, modify, set_panes. cbn.
    rewrite <- !app_assoc. reflexivity.
Qed.

(** C2 (as the code has it). Three children added to a new splitter
    make exactly two nested panes next to the root pane.  Child 1 is in
    the root's first slot and the first nested pane in the root's second
    slot; child 2 is in the first nested pane's first slot and the
    second nested pane in its second slot; child 3 is in the second
    nested pane's first slot, whose second slot is empty. *)
Theorem C2_splitter_three_children (orientation : string) (c1 c2 c3 : Widget) :
  exists root : Container,
    Splitter.__init__ orientation = inr root /\
    let self := three_children root c1 c2 c3 in
    children self = [c1; c2; c3] /\
    panes self = [Own 1; Own 2] /\
    constructed (gtk self)
    = [ (widget self, pane_class orientation);
        (Own 1, pane_class orientation);
        (Own 2, pane_class orientation) ] /\
    paned (gtk self) (widget self)
    = {| child1 := Some (get_widget c1); child2 := Some (Own 1) |} /\
    paned (gtk self) (Own 1)
    = {| child1 := Some (get_widget c2); child2 := Some (Own 2) |} /\
    paned (gtk self) (Own 2)
    = {| child1 := Some (get_widget c3); child2 := None |}.
Proof.
  exists (Splitter_root orientation). split; [apply Splitter_init_run|].
  unfold three_children, Splitter_root. cbn [exec run_op add_widget].
  rewrite (Splitter_add_widget_run c1). splitter_step.
  rewrite (Splitter_add_widget_run c2). splitter_step.
  rewrite (Splitter_add_widget_run c3). splitter_step.
  change (if bool_decide (Some orientation = Some "horizontal")
          then HPaned else VPaned) with (pane_class orientation).
  generalize (pane_class orientation). intros cls.
  destruct c1 as [o1 h1], c2 as [o2 h2], c3 as [o3 h3].
  repeat split.
Qed.

(** The third child is not in the second slot of the first nested pane:
    that slot holds the second nested pane. *)
Lemma C2_third_child_not_in_first_nested_pane :
  let c1 := {| oid := 1; handle := 101 |} in
  let c2 := {| oid := 2; handle := 102 |} in
  let c3 := {| oid := 3; handle := 103 |} in
  exists root : Container,
    Splitter.__init__ "horizontal" = inr root /\
    child2 (paned (gtk (three_children root c1 c2 c3)) (Own 1))
    = Some (Own 2) /\
    child2 (paned (gtk (three_children root c1 c2 c3)) (Own 1))
    <> Some (get_widget c3).
Proof.
  cbn zeta. eexists. split; [reflexivity|]. split; [reflexivity|].
  vm_compute. discriminate.
Qed.

End SplitterProofs.

(** ** Orientation tags *)

Section OrientationProofs.
Import Py Gtk ContainerBase.

Lemma eqb_not_horizontal (orientation : string) :
  orientation <> "horizontal" -> String.eqb orientation "horizontal" = false.
Proof. intros H. apply String.eqb_neq, H. Qed.

(** C7 (as the code has it). No constructor checks the orientation tag:
    with any tag other than ['horizontal'] the constructors of Box,
    Slider, ScrollBar and Toolbar return normally, with the very widget
    they build for ['vertical'], and a Splitter is built on a vertical
    pane and makes vertical panes from then on. *)
Theorem C7_orientation_defaults_to_vertical (orientation : string)
    (track : bool) :
  orientation <> "horizontal" ->
  Box.__init__ orientation = inr (ContainerBase.__init__ VBox) /\
  Box.__init__ orientation = Box.__init__ "vertical" /\
  Slider.__init__ orientation track = Slider.__init__ "vertical" track /\
  ScrollBar.__init__ orientation = ScrollBar.__init__ "vertical" /\
  Toolbar.__init__ orientation = Toolbar.__init__ "vertical" /\
  exists self : Container,
    Splitter.__init__ orientation = inr self /\
    gtk self = [(Own 0, New VPaned)] /\
    (Splitter._get_pane self).1.(gtk) = gtk self ++ [(Own 1, New VPaned)].
Proof.
  intros H. pose proof (eqb_not_horizontal orientation H) as E.
  unfold Box.__init__, Slider.__init__, ScrollBar.__init__, Toolbar.__init__.
  rewrite E. repeat (split; [reflexivity|]).
  unfold Splitter.__init__, Splitter._get_pane, bind, get.
  cbn [ContainerBase.orientation].
  rewrite bool_decide_eq_false_2 by congruence.
  eexists. split; [reflexivity|]. split; [reflexivity|].
  cbn. rewrite bool_decide_eq_false_2 by congruence. reflexivity.
Qed.

Lemma C7_orientation_defaults_to_vertical_witness :
  "diagonal" <> "horizontal" /\
  Box.__init__ "diagonal" = inr (ContainerBase.__init__ VBox) /\
  Slider.__init__ "diagonal" false = Slider.__init__ "vertical" false.
Proof.
  assert ("diagonal" <> "horizontal") as H by discriminate.
  split; [exact H|].
  pose proof (C7_orientation_defaults_to_vertical "diagonal" false H)
    as (Hbox & _ & Hslider & _).
  split; [exact Hbox | exact Hslider].
Defined.

(** With the tag ['diagonal'] no constructor raises a [ValueError]: each
    returns a widget, the vertical one. *)
Lemma C7_bad_orientation_is_accepted :
  Box.__init__ "diagonal" = inr (ContainerBase.__init__ VBox) /\
  (forall msg, Box.__init__ "diagonal" <> inl (ValueError msg)) /\
  (forall msg, Slider.__init__ "diagonal" false <> inl (ValueError msg)) /\
  (forall msg, ScrollBar.__init__ "diagonal" <> inl (ValueError msg)) /\
  (forall msg, Toolbar.__init__ "diagonal" <> inl (ValueError msg)) /\
  (forall msg, Splitter.__init__ "diagonal" <> inl (ValueError msg)).
Proof. repeat split; intros msg; discriminate. Qed.

End OrientationProofs.

(** ** Application *)

Section ApplicationProofs.
Import Py Application.

Lemma make_window_counter (self : Application) (title : option string) :
  let wid_ := String.append "win" (format_d (wincnt self)) in
  wid (make_window self title).2 = Some wid_ /\
  wincnt (make_window self title).1 = wincnt self + 1 /\
  window_dict (make_window self title).1 !! wid_
  = Some (make_window self title).2.
Proof.
  cbn zeta. unfold make_window, add_window. cbn [fst snd wid wincnt window_dict].
  repeat split. apply lookup_insert_eq.
Qed.

(** C9. On a fresh application two [make_window()] calls without an id
    give the windows the ids ['win0'] and ['win1'], in that order and
    distinct, both registered under their ids; each such call takes the
    current value of the counter for the id and advances the counter by
    one. *)
Theorem C9_make_window_ids (title1 title2 : option string) :
  let first := make_window __init__ title1 in
  let second := make_window first.1 title2 in
  wid first.2 = Some "win0" /\
  wid second.2 = Some "win1" /\
  wid first.2 <> wid second.2 /\
  wincnt __init__ = 0 /\ wincnt first.1 = 1 /\ wincnt second.1 = 2 /\
  window_dict second.1 !! "win0" = Some first.2 /\
  window_dict second.1 !! "win1" = Some second.2 /\
  get_window second.1 "win0" = inr first.2 /\
  get_window second.1 "win1" = inr second.2 /\
  (forall (self : Application) (title : option string),
     wid (make_window self title).2
     = Some (String.append "win" (format_d (wincnt self))) /\
     wincnt (make_window self title).1 = wincnt self + 1).
Proof.
  cbn zeta.
  assert (forall (self : Application) (title : option string),
     wid (make_window self title).2
     = Some (String.append "win" (format_d (wincnt self))) /\
     wincnt (make_window self title).1 = wincnt self + 1) as Hgen.
  { intros self title.
    destruct (make_window_counter self title) as (H1 & H2 & _).
    split; assumption. }
  unfold get_window, make_window, add_window, __init__.
  cbn [fst snd wid wincnt window_dict].
  change (String.append "win" (format_d 0)) with "win0".
  change (String.append "win" (format_d (0 + 1))) with "win1".
  rewrite lookup_insert_eq.
  rewrite lookup_insert_ne by discriminate. rewrite lookup_insert_eq.
  repeat split; try discriminate; apply Hgen.
Qed.

End ApplicationProofs.

(** ** ComboBox: deletion, lookup and selection *)

Section ComboBoxMoreProofs.
Import ComboBox.

Lemma delete_alpha_loop_spec text pre suf :
  Forall (fun row => row <> text) pre ->
  delete_alpha_loop (pre ++ suf) text (seq (length pre) (length suf))
  = pre ++ delete_first_equal text suf.
Proof.
  revert pre. induction suf as [|row suf IH]; intros pre Hpre;
    cbn [delete_alpha_loop delete_first_equal seq length].
  - reflexivity.
  - rewrite list_lookup_middle by reflexivity.
    destruct (String.eqb row text) eqn:E.
    + rewrite delete_middle. reflexivity.
    + specialize (IH (pre ++ [row])).
      rewrite <- app_assoc, length_app in IH. simpl in IH.
      replace (length pre + 1) with (S (length pre)) in IH by lia.
      rewrite IH.
      * rewrite <- app_assoc. reflexivity.
      * apply Forall_app. split; [exact Hpre|].
        constructor; [|constructor]. apply String.eqb_neq, E.
Qed.

Lemma delete_alpha_spec model text :
  delete_alpha model text = delete_first_equal text model.
Proof.
  unfold delete_alpha. apply (delete_alpha_loop_spec text [] model).
  constructor.
Qed.

Lemma delete_first_equal_absent text model :
  text ∉ model -> delete_first_equal text model = model.
Proof.
  induction model as [|row rest IH]; intros H; simpl; [reflexivity|].
  apply not_elem_of_cons in H as [Hne H].
  destruct (String.eqb row text) eqn:E.
  - apply String.eqb_eq in E. congruence.
  - rewrite IH by exact H. reflexivity.
Qed.

Lemma delete_first_equal_present text model :
  text ∈ model ->
  exists pre suf, model = pre ++ text :: suf /\ (text ∉ pre) /\
                  delete_first_equal text model = pre ++ suf.
Proof.
  induction model as [|row rest IH]; intros H; [inversion H|].
  simpl. destruct (String.eqb row text) eqn:E.
  - apply String.eqb_eq in E. subst row.
    exists [], rest. repeat split. apply not_elem_of_nil.
  - apply String.eqb_neq in E.
    apply elem_of_cons in H as [H | H]; [congruence|].
    destruct (IH H) as (pre & suf & Hm & Hpre & Hd).
    exists (row :: pre), suf. rewrite Hd, Hm. repeat split.
    apply not_elem_of_cons. split; [congruence | exact Hpre].
Qed.

(** X1. [delete_alpha] removes the first entry equal to the text and
    only that one: the entries before it and all entries after it,
    later duplicates included, stay in place.  When no entry equals the
    text the model is left as it is. *)
Theorem X1_delete_alpha_first_match (model : ListStore) (text : string) :
  (text ∉ model -> delete_alpha model text = model) /\
  (text ∈ model ->
   exists pre suf, model = pre ++ text :: suf /\ (text ∉ pre) /\
                   delete_alpha model text = pre ++ suf).
Proof.
  rewrite delete_alpha_spec. split.
  - apply delete_first_equal_absent.
  - apply delete_first_equal_present.
Qed.

Lemma X1_delete_alpha_first_match_witness :
  ("b" ∈ ["a"; "b"; "c"; "b"]) /\
  exists pre suf, ["a"; "b"; "c"; "b"] = pre ++ "b" :: suf /\ ("b" ∉ pre) /\
                  delete_alpha ["a"; "b"; "c"; "b"] "b" = pre ++ suf.
Proof.
  assert ("b" ∈ ["a"; "b"; "c"; "b"]) as H by (right; left).
  split; [exact H|].
  exact (proj2 (X1_delete_alpha_first_match ["a"; "b"; "c"; "b"] "b") H).
Defined.

Lemma str_le_antisym a b : str_le a b -> str_le b a -> a = b.
Proof.
  rewrite !str_le_compare. intros Hab Hba.
  apply String.compare_eq_iff.
  rewrite (String.compare_antisym b a) in Hba.
  destruct (String.compare a b); simpl in *; congruence.
Qed.

Lemma insert_before_greater_least text rest :
  Forall (str_le text) rest -> StronglySorted str_le rest ->
  insert_before_greater text rest = text :: rest.
Proof.
  induction rest as [|r rest IH]; intros Hall Hs; simpl; [reflexivity|].
  destruct (Py.str_gt r text) eqn:E; [reflexivity|].
  inversion Hall as [|? ? Hr Hall']; subst.
  inversion Hs as [|? ? Hs' Hrall]; subst.
  assert (r = text) as -> by (apply str_le_antisym; assumption).
  rewrite IH by assumption. reflexivity.
Qed.

(** X2. In a combo box whose entries are in ascending order,
    [insert_alpha] followed by [delete_alpha] of the same text gives
    back the entries exactly as they were, whether or not the text was
    already among them. *)
Theorem X2_insert_then_delete_alpha (model : ListStore) (text : string) :
  StronglySorted str_le model ->
  delete_alpha (insert_alpha model text) text = model.
Proof.
  rewrite insert_alpha_spec, delete_alpha_spec.
  induction 1 as [|row rest Hs IH Hall]; simpl.
  - rewrite String.eqb_refl. reflexivity.
  - destruct (Py.str_gt row text) eqn:E; simpl.
    + rewrite String.eqb_refl. reflexivity.
    + destruct (String.eqb row text) eqn:Eq.
      * apply String.eqb_eq in Eq. subst row.
        apply insert_before_greater_least; assumption.
      * rewrite IH. reflexivity.
Qed.

Lemma X2_insert_then_delete_alpha_witness :
  StronglySorted str_le ["a"; "b"; "b"; "d"] /\
  delete_alpha (insert_alpha ["a"; "b"; "b"; "d"] "b") "b"
  = ["a"; "b"; "b"; "d"].
Proof.
  assert (StronglySorted str_le ["a"; "b"; "b"; "d"]) as H
    by (repeat constructor).
  split; [exact H|].
  exact (X2_insert_then_delete_alpha ["a"; "b"; "b"; "d"] "b" H).
Defined.

Lemma delete_first_equal_sublist text model :
  delete_first_equal text model `sublist_of` model.
Proof.
  induction model as [|row rest IH]; simpl; [constructor|].
  destruct (String.eqb row text).
  - apply sublist_cons, reflexivity.
  - apply sublist_skip, IH.
Qed.

Lemma StronglySorted_sublist (l k : ListStore) :
  l `sublist_of` k -> StronglySorted str_le k -> StronglySorted str_le l.
Proof.
  induction 1 as [| x l k Hsub IH | x l k Hsub IH]; intros Hk.
  - constructor.
  - inversion Hk as [|? ? Hs Hall]; subst. constructor; [apply IH, Hs|].
    rewrite Forall_forall in Hall |- *.
    intros y Hy. apply Hall. exact (elem_of_sublist _ _ _ Hy Hsub).
  - inversion Hk; subst. apply IH. assumption.
Qed.

(** X3. [delete_alpha] keeps an ascending combo box ascending, and takes
    away exactly one entry when the text is there. *)
Theorem X3_delete_alpha_keeps_order (model : ListStore) (text : string) :
  StronglySorted str_le model ->
  StronglySorted str_le (delete_alpha model text) /\
  (text ∈ model -> S (length (delete_alpha model text)) = length model).
Proof.
  intros Hs. rewrite delete_alpha_spec. split.
  - eapply StronglySorted_sublist; [apply delete_first_equal_sublist | exact Hs].
  - intros Hin.
    destruct (delete_first_equal_present text model Hin)
      as (pre & suf & Hm & _ & Hd).
    rewrite Hd, Hm, !length_app. simpl. lia.
Qed.

Lemma X3_delete_alpha_keeps_order_witness :
  StronglySorted str_le ["a"; "b"; "c"] /\
  StronglySorted str_le (delete_alpha ["a"; "b"; "c"] "b").
Proof.
  assert (StronglySorted str_le ["a"; "b"; "c"]) as H by (repeat constructor).
  split; [exact H|].
  exact (proj1 (X3_delete_alpha_keeps_order ["a"; "b"; "c"] "b" H)).
Defined.

Lemma show_text_loop_spec (self : ComboBox) text pre suf :
  rows self = pre ++ suf ->
  Forall (fun row => row <> text) pre ->
  (text ∈ suf ->
   exists i, active (show_text_loop self text (seq (length pre) (length suf)))
             = Z.of_nat i /\
             rows self !! i = Some text /\
             forall j, j < i -> rows self !! j <> Some text) /\
  (text ∉ suf ->
   show_text_loop self text (seq (length pre) (length suf)) = self).
Proof.
  revert pre. induction suf as [|row suf IH]; intros pre Hrows Hpre;
    cbn [show_text_loop seq length].
  - split; [intros H; inversion H | reflexivity].
  - assert (rows self !! length pre = Some row) as ->
      by (rewrite Hrows; apply list_lookup_middle; reflexivity).
    destruct (String.eqb row text) eqn:E.
    + apply String.eqb_eq in E. subst row. split.
      * intros _. exists (length pre). cbn [set_index active].
        split; [reflexivity|]. rewrite Hrows. split.
        -- apply list_lookup_middle. reflexivity.
        -- intros j Hj Hl. rewrite lookup_app_l in Hl by exact Hj.
           apply list_elem_of_lookup_2 in Hl.
           rewrite Forall_forall in Hpre. exact (Hpre _ Hl eq_refl).
      * intros Hout. exfalso. apply Hout. left.
    + apply String.eqb_neq in E.
      specialize (IH (pre ++ [row])).
      rewrite <- app_assoc, length_app in IH. simpl in IH.
      replace (length pre + 1) with (S (length pre)) in IH by lia.
      destruct IH as [IHin IHout]; [exact Hrows | |].
      { apply Forall_app. split; [exact Hpre|]. repeat constructor. exact E. }
      split.
      * intros Hin. apply IHin.
        apply elem_of_cons in Hin as [Hin | Hin]; [congruence | exact Hin].
      * intros Hout. apply IHout. intros Hin. apply Hout. right. exact Hin.
Qed.

(** X4. [show_text] makes the first entry equal to the text the active
    one, so that [get_alpha(get_index())] reads the text back; when no
    entry equals the text the selection is not touched.  [show_text]
    never changes the entries. *)
Theorem X4_show_text_selects_first (self : ComboBox) (text : string) :
  (text ∈ rows self ->
   exists i, get_index (show_text self text) = Z.of_nat i /\
             get_alpha (rows (show_text self text)) i = inr text /\
             forall j, j < i -> get_alpha (rows self) j <> inr text) /\
  (text ∉ rows self -> show_text self text = self) /\
  rows (show_text self text) = rows self.
Proof.
  pose proof (show_text_loop_spec self text [] (rows self) eq_refl
                (Forall_nil_2 _)) as [Hin Hout].
  assert (rows (show_text self text) = rows self) as Hrows.
  { destruct (decide (text ∈ rows self)) as [H | H].
    - unfold show_text. clear Hin Hout.
      generalize (seq 0 (length (rows self))). intros range.
      induction range as [|i range IH]; cbn [show_text_loop]; [reflexivity|].
      destruct (rows self !! i); [|reflexivity].
      destruct (String.eqb s text); [reflexivity | exact IH].
    - unfold show_text. simpl in Hout. rewrite (Hout H). reflexivity. }
  split; [|split; [exact Hout | exact Hrows]].
  intros H. destruct (Hin H) as (i & Ha & Hl & Hfirst).
  exists i. unfold get_index, show_text. split; [exact Ha|].
  unfold get_alpha. fold (show_text self text). rewrite Hrows, Hl.
  split; [reflexivity|].
  intros j Hj. specialize (Hfirst j Hj).
  destruct (rows self !! j); congruence.
Qed.

Lemma X4_show_text_selects_first_witness :
  let self := {| rows := ["a"; "b"; "b"]; active := (-1)%Z |} in
  ("b" ∈ rows self) /\
  exists i, get_index (show_text self "b") = Z.of_nat i /\
            get_alpha (rows (show_text self "b")) i = inr "b" /\
            forall j, j < i -> get_alpha (rows self) j <> inr "b".
Proof.
  cbn zeta.
  assert ("b" ∈ rows {| rows := ["a"; "b"; "b"]; active := (-1)%Z |}) as H
    by (right; left).
  split; [exact H|].
  exact (proj1 (X4_show_text_selects_first
                  {| rows := ["a"; "b"; "b"]; active := (-1)%Z |} "b") H).
Defined.

(** X5. Entries read back where they were put: after [append_text] the
    text is the last entry, after [insert_text] at an index within the
    model it is the entry at that index, and past the end it is
    appended; [get_alpha] at an index past the last entry raises
    [IndexError]. *)
Theorem X5_insert_text_get_alpha (model : ListStore) (idx : nat)
    (text : string) :
  get_alpha (append_text model text) (length model) = inr text /\
  (idx <= length model ->
   get_alpha (insert_text model idx text) idx = inr text) /\
  (length model <= idx ->
   insert_text model idx text = append_text model text) /\
  (length model <= idx ->
   exists msg, get_alpha model idx = inl (Py.IndexError msg)) /\
  length (insert_text model idx text) = S (length model).
Proof.
  unfold get_alpha, append_text, insert_text, liststore_insert.
  repeat split.
  - rewrite take_ge, drop_ge by lia.
    rewrite list_lookup_middle; reflexivity.
  - intros H. rewrite list_lookup_middle; [reflexivity|].
    rewrite length_take. lia.
  - intros H. rewrite !take_ge, !drop_ge by lia. reflexivity.
  - intros H. rewrite lookup_ge_None_2 by lia. eexists. reflexivity.
  - rewrite length_app. simpl. rewrite length_take, length_drop. lia.
Qed.

Lemma X5_insert_text_get_alpha_witness :
  (1 <= length ["a"; "c"]) /\
  get_alpha (insert_text ["a"; "c"] 1 "b") 1 = inr "b".
Proof.
  assert (1 <= length ["a"; "c"]) as H by (simpl; lia).
  split; [exact H|].
  exact (proj1 (proj2 (X5_insert_text_get_alpha ["a"; "c"] 1 "b")) H).
Defined.

End ComboBoxMoreProofs.

(** ** TextArea: the limit as an invariant, [clear] and [set_text] *)

Section TextAreaMoreProofs.
Import TextArea.

Lemma append_text_histlimit tk self text autoscroll :
  histlimit (append_text tk self text autoscroll) = histlimit self.
Proof.
  unfold append_text, _history_housekeeping.
  cbn [set_buffer histlimit buffer].
  destruct (histlimit self >? 0)%Z;
    [destruct (_ >? _)%Z|]; destruct autoscroll; reflexivity.
Qed.

(** What [append_text] leaves in the buffer under a limit of at least
    one line. *)
Lemma append_text_lines tk self text autoscroll :
  (1 <= histlimit self)%Z ->
  let appended := String.append (buffer self) text in
  lines (buffer (append_text tk self text autoscroll))
  = drop (get_line_count appended - Z.to_nat (histlimit self))
         (lines appended).
Proof.
  intros HL appended.
  destruct (Z_gt_le_dec (Z.of_nat (get_line_count appended)) (histlimit self))
    as [Hgt | Hle].
  - pose proof (housekeeping_trims tk
      (set_buffer (String.append (buffer self) text) self) HL Hgt)
      as (Hl & _ & _).
    cbn zeta in Hl. cbn [set_buffer histlimit buffer] in Hl.
    unfold append_text. cbn [set_buffer histlimit buffer].
    replace (histlimit self >? 0)%Z with true by lia.
    destruct autoscroll; exact Hl.
  - replace (get_line_count appended - Z.to_nat (histlimit self)) with 0 by lia.
    unfold append_text, _history_housekeeping.
    cbn [set_buffer histlimit buffer]. fold appended.
    replace (histlimit self >? 0)%Z with true by lia.
    replace (Z.of_nat (get_line_count appended) >? histlimit self)%Z
      with false by lia.
    destruct autoscroll; reflexivity.
Qed.

(** X6. Under a line limit [L >= 1] the buffer never holds more than
    [L] lines after an [append_text]: the line count is the smaller of
    [L] and the line count of the old text followed by the new text, and
    the limit itself is not changed by the append.  So after every
    append of any run of appends the buffer is within the limit. *)
Theorem X6_append_text_within_limit tk (self : TextArea) (text : string)
    (autoscroll : bool) (texts : list string) :
  (1 <= histlimit self)%Z ->
  let appended := String.append (buffer self) text in
  let self' := append_text tk self text autoscroll in
  Z.of_nat (get_line_count (buffer self'))
  = Z.min (histlimit self) (Z.of_nat (get_line_count appended)) /\
  histlimit self' = histlimit self /\
  (Z.of_nat (get_line_count (buffer (append_all tk self' texts)))
   <= histlimit self)%Z.
Proof.
  intros HL appended self'.
  assert (forall s t a, (1 <= histlimit s)%Z ->
            Z.of_nat (get_line_count (buffer (append_text tk s t a)))
            = Z.min (histlimit s)
                (Z.of_nat (get_line_count (String.append (buffer s) t))))
    as Hcount.
  { intros s t a Hs.
    rewrite <- lines_length, (append_text_lines tk s t a Hs),
      length_drop, lines_length. lia. }
  split; [apply Hcount, HL|].
  split; [apply append_text_histlimit|].
  assert (histlimit self' = histlimit self) as Hh
    by apply append_text_histlimit.
  assert (Z.of_nat (get_line_count (buffer self')) <= histlimit self')%Z as Hc.
  { unfold self'. rewrite Hcount, append_text_histlimit by exact HL. lia. }
  rewrite <- Hh in HL |- *. clear Hh. revert Hc HL.
  generalize self'. clear self' appended.
  induction texts as [|t ts IH]; intros s Hc HL; [exact Hc|].
  cbn [append_all foldl]. fold (append_all tk (append_text tk s t true) ts).
  rewrite <- (append_text_histlimit tk s t true).
  apply IH.
  - rewrite Hcount, append_text_histlimit by exact HL. lia.
  - rewrite append_text_histlimit. exact HL.
Qed.

Lemma X6_append_text_within_limit_witness :
  let self := {| buffer := "a"; histlimit := 2; scrolled_to := None |} in
  let text := String LF "b" +:+ String LF "c" in
  (1 <= histlimit self)%Z /\
  Z.of_nat (get_line_count (buffer (append_text EndIter self text false)))
  = Z.min 2 (Z.of_nat (get_line_count (String.append "a" text))).
Proof.
  cbn zeta.
  assert (1 <= 2)%Z as H by lia.
  split; [exact H|].
  exact (proj1 (X6_append_text_within_limit EndIter
                  {| buffer := "a"; histlimit := 2; scrolled_to := None |}
                  (String LF "b" +:+ String LF "c") false [] H)).
Defined.

Lemma clear_buffer (self : TextArea) : buffer (clear self) = EmptyString.
Proof.
  unfold clear. cbn [set_buffer buffer].
  rewrite delete_from_start. apply str_drop_length.
Qed.

(** X7. [clear] empties the buffer of the text view and keeps the
    limit.  [set_text] replaces the text: with no limit (a limit of zero
    or less) the buffer then holds exactly the text set, whatever was in
    it before; with a limit [L >= 1] it holds the last [L] lines of the
    text.  The text cannot be read back through [get_text]: it calls
    [buf.get_text()] without the two iterators the buffer's method
    requires and raises [TypeError], whatever the buffer holds. *)
Theorem X7_set_text_replaces tk (self : TextArea) (text : string) :
  buffer (clear self) = EmptyString /\
  histlimit (clear self) = histlimit self /\
  ((histlimit self <= 0)%Z -> buffer (set_text tk self text) = text) /\
  ((1 <= histlimit self)%Z ->
   lines (buffer (set_text tk self text))
   = drop (get_line_count text - Z.to_nat (histlimit self)) (lines text)) /\
  (exists msg, get_text (set_text tk self text) = inl (Py.TypeError msg)) /\
  (exists msg, get_text self = inl (Py.TypeError msg)).
Proof.
  unfold set_text. split; [apply clear_buffer|].
  split; [reflexivity|]. split; [|split; [|split; eexists; reflexivity]].
  - intros H0. unfold append_text. cbn [set_buffer histlimit buffer].
    rewrite clear_buffer. change (histlimit (clear self)) with (histlimit self).
    replace (histlimit self >? 0)%Z with false by lia. reflexivity.
  - intros HL.
    pose proof (append_text_lines tk (clear self) text true HL) as H.
    cbn zeta in H. rewrite clear_buffer in H. exact H.
Qed.

Lemma X7_set_text_replaces_witness :
  let self := {| buffer := "old"; histlimit := 0; scrolled_to := None |} in
  (histlimit self <= 0)%Z /\
  buffer (set_text PyGTK self "new") = "new".
Proof.
  cbn zeta.
  assert (0 <= 0)%Z as H by lia.
  split; [exact H|].
  exact (proj1 (proj2 (proj2 (X7_set_text_replaces PyGTK
    {| buffer := "old"; histlimit := 0; scrolled_to := None |} "new"))) H).
Defined.

End TextAreaMoreProofs.

(** ** TextArea: appending in pieces *)

Section TextAreaBatchProofs.
Import TextArea.

Lemma lines_nonempty buf : lines buf <> [].
Proof.
  pose proof (lines_length buf). pose proof (get_line_count_pos buf).
  destruct (lines buf); simpl in *; [lia | discriminate].
Qed.

Lemma unlines_lines buf : unlines (lines buf) = buf.
Proof.
  induction buf as [|c rest IH]; [reflexivity|].
  cbn [lines]. pose proof (lines_nonempty rest) as Hne.
  destruct (Ascii.eqb c LF) eqn:E.
  - apply Ascii.eqb_eq in E. subst c.
    destruct (lines rest) as [|l ls] eqn:El; [congruence|].
    cbn [unlines String.append]. cbn [unlines] in IH. rewrite IH. reflexivity.
  - destruct (lines rest) as [|l ls] eqn:El; [congruence|].
    cbn [unlines] in IH |- *. destruct ls; simpl; rewrite <- IH; reflexivity.
Qed.

Lemma lines_inj a b : lines a = lines b -> a = b.
Proof.
  intros H. rewrite <- (unlines_lines a), <- (unlines_lines b), H. reflexivity.
Qed.

Lemma lines_append a b : lines (String.append a b) = glue (lines a) (lines b).
Proof.
  induction a as [|c rest IH].
  - change (lines b = glue [EmptyString] (lines b)).
    pose proof (lines_nonempty b) as Hnb.
    destruct (lines b); [congruence | reflexivity].
  - change (String.append (String c rest) b)
      with (String c (String.append rest b)).
    cbn [lines]. rewrite IH.
    pose proof (lines_nonempty rest) as Hne.
    pose proof (lines_nonempty b) as Hnb.
    destruct (lines rest) as [|l ls]; [congruence|].
    destruct (lines b) as [|h tl]; [congruence|].
    destruct (Ascii.eqb c LF); [reflexivity|].
    destruct ls; reflexivity.
Qed.

Lemma string_append_assoc (a b c : string) :
  String.append a (String.append b c) = String.append (String.append a b) c.
Proof.
  induction a as [|x a IH]; [reflexivity|].
  change (String x (String.append a (String.append b c))
          = String x (String.append (String.append a b) c)).
  rewrite IH. reflexivity.
Qed.

Lemma glue_length ls lt :
  ls <> [] -> lt <> [] -> S (length (glue ls lt)) = length ls + length lt.
Proof.
  induction ls as [|l ls IH]; intros Hs Ht; [congruence|].
  destruct ls as [|l' ls].
  - destruct lt; [congruence|]. simpl. lia.
  - assert (l' :: ls <> []) as Hne by discriminate.
    specialize (IH Hne Ht).
    change (glue (l :: l' :: ls) lt) with (l :: glue (l' :: ls) lt).
    simpl length in *. lia.
Qed.

Lemma glue_drop k ls lt :
  k < length ls -> glue (drop k ls) lt = drop k (glue ls lt).
Proof.
  revert ls. induction k as [|k IH]; intros ls Hk.
  - rewrite !drop_0. reflexivity.
  - destruct ls as [|l ls]; [simpl in Hk; lia|].
    destruct ls as [|l' ls]; [simpl in Hk; lia|].
    cbn [glue]. rewrite !skipn_cons. apply IH. simpl in *. lia.
Qed.

(** X8. Under a line limit [L >= 1] it makes no difference to the text
    left in the buffer whether a text is appended in two pieces or in
    one: trimming after the first piece loses nothing that would have
    survived the second. *)
Theorem X8_append_text_in_pieces tk (self : TextArea) (a b : string)
    (s1 s2 s3 : bool) :
  (1 <= histlimit self)%Z ->
  buffer (append_text tk (append_text tk self a s1) b s2)
  = buffer (append_text tk self (String.append a b) s3).
Proof.
  intros HL. apply lines_inj.
  assert (1 <= histlimit (append_text tk self a s1))%Z as HL'
    by (rewrite append_text_histlimit; exact HL).
  rewrite (append_text_lines tk _ b s2 HL'). cbn zeta.
  rewrite (append_text_lines tk self (String.append a b) s3 HL). cbn zeta.
  rewrite append_text_histlimit.
  rewrite <- !lines_length, !lines_append.
  rewrite (append_text_lines tk self a s1 HL). cbn zeta.
  rewrite <- lines_length, lines_append.
  set (X := glue (lines (buffer self)) (lines a)).
  set (B := lines b). set (n := Z.to_nat (histlimit self)).
  assert (glue (lines (buffer self)) (glue (lines a) B) = glue X B) as ->.
  { unfold X, B. rewrite <- !lines_append, string_append_assoc. reflexivity. }
  assert (X <> []) as HX
    by (unfold X; rewrite <- lines_append; apply lines_nonempty).
  assert (B <> []) as HB by apply lines_nonempty.
  assert (1 <= n) as Hn by (unfold n; lia).
  assert (1 <= length X) by (destruct X; simpl; [congruence | lia]).
  assert (1 <= length B) by (destruct B; simpl; [congruence | lia]).
  pose proof (glue_length X B HX HB) as Hlen.
  destruct (le_lt_dec (length X) n) as [Hle | Hgt].
  - replace (length X - n) with 0 by lia. rewrite drop_0. reflexivity.
  - rewrite glue_drop by lia. rewrite drop_drop, length_drop.
    f_equal. lia.
Qed.

Lemma X8_append_text_in_pieces_witness :
  let self := {| buffer := "a"; histlimit := 1; scrolled_to := None |} in
  (1 <= histlimit self)%Z /\
  buffer (append_text EndIter (append_text EndIter self (String LF "b") true)
            "c" true)
  = buffer (append_text EndIter self (String.append (String LF "b") "c") true).
Proof.
  cbn zeta.
  assert (1 <= 1)%Z as H by lia.
  split; [exact H|].
  exact (X8_append_text_in_pieces EndIter
           {| buffer := "a"; histlimit := 1; scrolled_to := None |}
           (String LF "b") "c" true true true H).
Defined.

End TextAreaBatchProofs.

(** ** Containers: removal, replacement and round trips *)

Section ContainerMoreProofs.
Import Py Gtk ContainerBase Ops.

(** The container after a [remove] that finds the widget. *)
Lemma remove_child_state (self : Container) (w : Widget) :
  w ∈ children self ->
  remove w self
  = ({| widget := widget self; children := list_remove w (children self);
        orientation := orientation self; panes := panes self;
        made := made self;
        gtk := gtk self ++ [(widget self, Gtk.remove (get_widget w))] |},
     inr tt).
Proof.
  intros Hw. unfold ContainerBase.remove, bind, get.
  rewrite bool_decide_eq_true_2 by exact Hw. reflexivity.
Qed.

Lemma list_remove_length w l :
  w ∈ l -> S (length (list_remove w l)) = length l.
Proof.
  induction l as [|y l IH]; intros H; [inversion H|]. simpl.
  destruct (decide (y = w)) as [E | E].
  - rewrite bool_decide_eq_true_2 by exact E. reflexivity.
  - rewrite bool_decide_eq_false_2 by exact E. simpl.
    apply elem_of_cons in H as [H | H]; [congruence|].
    rewrite IH by exact H. reflexivity.
Qed.

(** X9. A [remove] of a widget that is a child takes exactly one entry
    out of the child list, the first one equal to the widget, makes
    exactly one call on the native widget, [remove] with the child's
    native widget, and raises nothing; a second copy of the widget in the
    list stays a child. *)
Theorem X9_remove_child (self : Container) (w : Widget) :
  w ∈ children self ->
  (remove w self).2 = inr tt /\
  children (remove w self).1 = delete_first w (children self) /\
  S (length (children (remove w self).1)) = length (children self) /\
  gtk (remove w self).1
  = gtk self ++ [(widget self, Gtk.remove (get_widget w))] /\
  (w ∈ list_remove w (children self) -> w ∈ children (remove w self).1).
Proof.
  intros Hw. rewrite (remove_child_state self w Hw). cbn [fst snd children gtk].
  rewrite delete_first_list_remove.
  repeat split; [apply list_remove_length, Hw | tauto].
Qed.

Lemma X9_remove_child_witness :
  let w := {| oid := 1; handle := 11 |} in
  let self := exec [Add (BoxAdd w 0); Add (BoxAdd w 0)]
                   (ContainerBase.__init__ HBox) in
  (w ∈ children self) /\
  (remove w self).2 = inr tt /\
  children (remove w self).1 = [w].
Proof.
  cbn zeta.
  assert ({| oid := 1; handle := 11 |}
          ∈ children (exec [Add (BoxAdd {| oid := 1; handle := 11 |} 0);
                            Add (BoxAdd {| oid := 1; handle := 11 |} 0)]
                           (ContainerBase.__init__ HBox))) as Hw by left.
  split; [exact Hw|].
  pose proof (X9_remove_child _ _ Hw) as (Hok & Hch & _).
  split; [exact Hok|]. rewrite Hch. reflexivity.
Defined.

Lemma for_each_remove_log (l : list Widget) :
  forall self : Container, children self = l ->
    (for_each l remove self).1
    = {| widget := widget self; children := [];
         orientation := orientation self; panes := panes self;
         made := made self;
         gtk := gtk self
                ++ map (fun w => (widget self, Gtk.remove (get_widget w))) l |}.
Proof.
  induction l as [|a t IH]; intros self Hc.
  - cbn [for_each map]. unfold ret. cbn [fst]. rewrite app_nil_r.
    destruct self. simpl in *. subst. reflexivity.
  - cbn [for_each]. unfold bind.
    assert (a ∈ children self) as Hin by (rewrite Hc; left).
    rewrite (remove_child_state self a Hin).
    rewrite IH.
    + cbn [widget orientation panes made gtk map].
      rewrite <- app_assoc. reflexivity.
    + cbn [children]. rewrite Hc. simpl.
      rewrite bool_decide_eq_true_2 by reflexivity. reflexivity.
Qed.

Lemma remove_all_state (self : Container) :
  remove_all self
  = ({| widget := widget self; children := [];
        orientation := orientation self; panes := panes self;
        made := made self;
        gtk := gtk self
               ++ map (fun w => (widget self, Gtk.remove (get_widget w)))
                      (children self) |},
     inr tt).
Proof.
  pose proof (remove_all_empties self) as [Hok _].
  pose proof (for_each_remove_log (children self) self eq_refl) as Hst.
  unfold remove_all, bind, get in *.
  destruct (for_each (children self) ContainerBase.remove self) as [s r].
  cbn [fst snd] in *. subst. reflexivity.
Qed.

(** X10. [remove_all] never raises, whatever the child list holds, a
    widget listed twice included: it works on a copy of the list, leaves
    the child list empty, and makes one native [remove] call per entry
    of the old list, in the order of the list; nothing else about the
    container changes. *)
Theorem X10_remove_all_log (self : Container) :
  (remove_all self).2 = inr tt /\
  children (remove_all self).1 = [] /\
  gtk (remove_all self).1
  = gtk self ++ map (fun w => (widget self, Gtk.remove (get_widget w)))
                    (children self) /\
  widget (remove_all self).1 = widget self /\
  panes (remove_all self).1 = panes self.
Proof. rewrite remove_all_state. repeat split. Qed.

(** X11. The [set_widget] of a Frame, an Expander or a ScrollArea
    replaces: whatever the container held, afterwards the child list is
    the new child alone, every former child has been removed from the
    native widget before the new one is added, and nothing is raised.
    The [set_widget] of a TopLevel only adds: the former children stay
    in the list, and no native [remove] is made. *)
Theorem X11_set_widget_replaces (child : Widget) (self : Container) :
  (Frame.set_widget child self).2 = inr tt /\
  children (Frame.set_widget child self).1 = [child] /\
  gtk (Frame.set_widget child self).1
  = gtk self
    ++ map (fun w => (widget self, Gtk.remove (get_widget w))) (children self)
    ++ [(widget self, add (get_widget child)); (widget self, show_all)] /\
  (ScrollArea.set_widget child self).2 = inr tt /\
  children (ScrollArea.set_widget child self).1 = [child] /\
  (TopLevel.set_widget child self).2 = inr tt /\
  children (TopLevel.set_widget child self).1 = children self ++ [child] /\
  gtk (TopLevel.set_widget child self).1
  = gtk self ++ [(widget self, add (get_widget child))] /\
  gtk (ScrollArea.set_widget child self).1
  = gtk self
    ++ map (fun w => (widget self, Gtk.remove (get_widget w))) (children self)
    ++ [(widget self, add_with_viewport (get_widget child));
        (widget self, show_all)].
Proof.
  unfold Frame.set_widget, ScrollArea.set_widget, TopLevel.set_widget, bind.
  rewrite remove_all_state. cbn. rewrite <- !app_assoc. repeat split.
Qed.

(** X12. Adding a widget that is not yet a child and removing it again
    gives back the child list as it was, for the [add_widget] of every
    container class that gets as far as [add_ref]: Box, TabWidget,
    Splitter, GridBox, Toolbar and Menu.  None of them checks for a
    widget that is already a child: added twice, it is in the list
    twice, and one [remove] leaves the later copy.  The [add_widget] of
    a Menubar raises [AttributeError] instead and lists nothing, so the
    [remove] that follows raises as for any widget that is not a
    child. *)
Theorem X12_add_then_remove (a : AddWidget) (self : Container) :
  added a ∉ children self ->
  (reaches_add_ref a = true ->
   children (exec [Add a; Remove (added a)] self) = children self /\
   children (exec [Add a; Add a] self)
   = children self ++ [added a; added a] /\
   children (exec [Add a; Add a; Remove (added a)] self)
   = children self ++ [added a]) /\
  (reaches_add_ref a = false ->
   (exists msg, (add_widget a self).2 = inl (AttributeError msg)) /\
   exec [Add a] self = self /\
   (remove (added a) (exec [Add a] self)).2 = inl NotAChildError).
Proof.
  intros Hw. split; [intros Hr | intros Hr;
    destruct (add_widget_no_add_ref a self Hr) as [Hs He];
    split; [exact He|]; split; [exact Hs|];
    cbn [exec run_op]; rewrite Hs, (remove_not_child self _ Hw);
    reflexivity].
  assert (forall l, added a ∉ l ->
            list_remove (added a) (l ++ [added a]) = l) as H1.
  { induction l as [|y l IH]; intros Hl; simpl.
    - rewrite bool_decide_eq_true_2 by reflexivity. reflexivity.
    - apply not_elem_of_cons in Hl as [Hne Hl].
      rewrite bool_decide_eq_false_2 by congruence.
      rewrite IH by exact Hl. reflexivity. }
  assert (forall l k, added a ∉ l ->
            list_remove (added a) (l ++ added a :: k) = l ++ k) as H2.
  { induction l as [|y l IH]; intros k Hl; simpl.
    - rewrite bool_decide_eq_true_2 by reflexivity. reflexivity.
    - apply not_elem_of_cons in Hl as [Hne Hl].
      rewrite bool_decide_eq_false_2 by congruence.
      rewrite IH by exact Hl. reflexivity. }
  rewrite !exec_children_effective. cbn [effective]. rewrite Hr.
  cbn [simulate added].
  rewrite !delete_first_list_remove, <- !app_assoc. cbn [app].
  rewrite H1 by exact Hw.
  rewrite (H2 (children self) [added a] Hw). repeat split.
Qed.

Lemma X12_add_then_remove_witness :
  let w := {| oid := 7; handle := 70 |} in
  let self := ContainerBase.__init__ VBox in
  (added (BoxAdd w 1) ∉ children self) /\
  reaches_add_ref (BoxAdd w 1) = true /\
  children (exec [Add (BoxAdd w 1); Remove w] self) = children self.
Proof.
  cbn zeta.
  assert (added (BoxAdd {| oid := 7; handle := 70 |} 1)
          ∉ children (ContainerBase.__init__ VBox)) as H
    by apply not_elem_of_nil.
  split; [exact H|]. split; [reflexivity|].
  exact (proj1 (proj1 (X12_add_then_remove
                         (BoxAdd {| oid := 7; handle := 70 |} 1) _ H)
                      eq_refl)).
Defined.

End ContainerMoreProofs.

(** ** Splitter: the chain of panes for any number of children *)

Section SplitterChainProofs.
Import Py Gtk ContainerBase Ops.

Lemma paned_app (log new : Log) (pane : Handle) :
  paned (log ++ new) pane
  = foldl (fun st c => if bool_decide (c.1 = pane) then paned_call st c.2
                       else st)
          (paned log pane) new.
Proof. unfold paned. rewrite foldl_app. reflexivity. Qed.

Lemma add_children_snoc (cs : list Widget) (c : Widget) (self : Container) :
  add_children (cs ++ [c]) self
  = (Splitter.add_widget c (add_children cs self)).1.
Proof.
  unfold add_children. rewrite map_app. cbn [map].
  generalize (map (fun c => Add (SplitterAdd c)) cs). intros ops.
  revert self. induction ops as [|op ops IH]; intros self; [reflexivity|].
  cbn [app exec]. apply IH.
Qed.

Lemma chain_inv_root (o : string) : chain_inv [] (Splitter_root o).
Proof.
  split; try reflexivity.
  - intros i c H. inversion H.
  - intros i H. simpl in H. lia.
  - intros i _. unfold Splitter_root, paned. cbn [gtk foldl fst snd].
    destruct (bool_decide (Own 0 = Own i)); reflexivity.
  - intros i _. unfold Splitter_root, paned. cbn [gtk foldl fst snd].
    destruct (bool_decide (Own 0 = Own i)); reflexivity.
Qed.

Lemma own_eq (i j : nat) : bool_decide (Own i = Own j) = bool_decide (i = j).
Proof. apply bool_decide_ext. split; congruence. Qed.

Lemma last_map_own (n : nat) :
  default (Own 0) (last (map Own (seq 1 n))) = Own n.
Proof.
  destruct n as [|n]; [reflexivity|].
  rewrite seq_S, map_app. cbn [map]. rewrite last_snoc. reflexivity.
Qed.

Lemma chain_inv_step (cs : list Widget) (c : Widget) (self : Container) :
  chain_inv cs self ->
  chain_inv (cs ++ [c]) (Splitter.add_widget c self).1.
Proof.
  intros [Hw Hc Hp Hm Hs1 Hs2 Hl Hf].
  rewrite Splitter_add_widget_run. cbn zeta.
  rewrite Hc, Hw, Hp, Hm, last_map_own.
  rewrite length_app. cbn [length].
  destruct cs as [|c0 cs'].
  - (* the first child goes into the root pane *)
    cbn [length Nat.eqb Nat.add app].
    split; cbn [widget children panes made gtk]; try reflexivity.
    + intros i x Hi. destruct i as [|i]; [|inversion Hi].
      injection Hi as <-.
      rewrite paned_app. cbn [foldl fst snd paned_call]. rewrite bool_decide_eq_true_2 by reflexivity.
      rewrite (Hf 0) by (simpl; lia). reflexivity.
    + intros i Hi. simpl in Hi. lia.
    + intros i _.
      rewrite paned_app. cbn [foldl fst snd paned_call].
      destruct (bool_decide (Own 0 = Own i));
        [destruct (child1 (paned (gtk self) (Own i)))|];
        cbn [child2]; apply Hl; simpl; lia.
    + intros i Hi. simpl in Hi.
      rewrite paned_app. cbn [foldl fst snd paned_call]. rewrite own_eq.
      rewrite bool_decide_eq_false_2 by lia. apply Hf. simpl. lia.
  - (* a later child gets a pane of its own *)
    set (n := length (c0 :: cs')) in *.
    assert (1 <= n) as Hn by (unfold n; simpl; lia).
    replace (n + 1 =? 1)%nat with false
      by (symmetry; apply Nat.eqb_neq; lia).
    replace (Nat.max 1 n) with n by lia.
    replace (n - 1) with (pred n) by lia.
    assert (forall i,
      paned (gtk self ++ [(Own n, New (if bool_decide
                                 (orientation self = Some "horizontal")
                               then HPaned else VPaned));
                          (Own n, pack1 (get_widget c));
                          (Own (pred n), pack2 (Own n));
                          (Own 0, show_all)]) (Own i)
      = if bool_decide (i = n) then
          {| child1 := Some (get_widget c); child2 := None |}
        else if bool_decide (i = pred n) then
          {| child1 := child1 (paned (gtk self) (Own i));
             child2 := Some (Own n) |}
        else paned (gtk self) (Own i)) as Hlog.
    { intros i. rewrite paned_app. cbn [foldl fst snd]. rewrite !own_eq.
      destruct (decide (i = n)) as [-> | Hin].
      - rewrite !(bool_decide_eq_true_2 (n = n)) by reflexivity.
        rewrite (bool_decide_eq_false_2 (pred n = n)) by lia.
        rewrite (bool_decide_eq_false_2 (0 = n)) by lia.
        pose proof (Hf n ltac:(lia)) as H1.
        pose proof (Hl n ltac:(lia)) as H2.
        destruct (paned (gtk self) (Own n)) as [x1 x2].
        cbn in H1, H2. subst. reflexivity.
      - rewrite !(bool_decide_eq_false_2 (n = i)) by lia.
        rewrite (bool_decide_eq_false_2 (i = n)) by lia.
        destruct (decide (i = pred n)) as [-> | Hip].
        + rewrite !(bool_decide_eq_true_2 (pred n = pred n)) by reflexivity.
          pose proof (Hl (pred n) ltac:(lia)) as H2.
          destruct (paned (gtk self) (Own (pred n))) as [x1 x2].
          cbn in H2. subst.
          destruct (bool_decide (0 = pred n)); reflexivity.
        + rewrite (bool_decide_eq_false_2 (pred n = i)) by lia.
          rewrite (bool_decide_eq_false_2 (i = pred n)) by lia.
          destruct (bool_decide (0 = i)); reflexivity. }
    split; cbn [widget children panes made gtk];
      try rewrite (length_app (c0 :: cs') [c]);
      change (length (c0 :: cs')) with n; change (length [c]) with 1.
    + reflexivity.
    + reflexivity.
    + replace (n + 1 - 1) with (S (pred n)) by lia.
      rewrite seq_S, map_app. cbn [map].
      replace (1 + pred n) with n by lia. reflexivity.
    + lia.
    + intros i x Hi. rewrite Hlog.
      apply lookup_app_Some in Hi as [Hi | [Hge Hi]].
      * pose proof (lookup_lt_Some _ _ _ Hi). fold n in H.
        rewrite bool_decide_eq_false_2 by lia.
        destruct (bool_decide (i = pred n)); cbn [child1]; apply Hs1, Hi.
      * fold n in Hge, Hi.
        destruct (i - n) as [|k] eqn:Ek; [|destruct k; inversion Hi].
        injection Hi as <-. rewrite bool_decide_eq_true_2 by lia. reflexivity.
    + intros i Hi. rewrite Hlog.
      rewrite bool_decide_eq_false_2 by lia.
      destruct (decide (i = pred n)) as [-> | Hip].
      * rewrite bool_decide_eq_true_2 by reflexivity. cbn [child2].
        replace (S (pred n)) with n by lia. reflexivity.
      * rewrite bool_decide_eq_false_2 by exact Hip. apply Hs2. fold n. lia.
    + intros i Hi. rewrite Hlog.
      destruct (decide (i = n)) as [-> | Hin].
      * rewrite bool_decide_eq_true_2 by reflexivity. reflexivity.
      * rewrite bool_decide_eq_false_2 by exact Hin.
        rewrite bool_decide_eq_false_2 by lia. apply Hl. fold n. lia.
    + intros i Hi. rewrite Hlog.
      rewrite !bool_decide_eq_false_2 by lia. apply Hf. fold n. lia.
Qed.

Lemma chain_inv_add_children (o : string) (cs : list Widget) :
  chain_inv cs (add_children cs (Splitter_root o)).
Proof.
  induction cs as [|c cs IH] using rev_ind.
  - apply chain_inv_root.
  - rewrite add_children_snoc. apply chain_inv_step, IH.
Qed.

(** X13. However many children are added to a new splitter, the first
    child makes no pane and every later child makes exactly one: with
    [n >= 1] children there are [n - 1] nested panes, the root included
    [n] panes in all, and the child list is the children in the order
    they were added. *)
Theorem X13_splitter_pane_count (orientation : string) (cs : list Widget) :
  let self := add_children cs (Splitter_root orientation) in
  Splitter.__init__ orientation = inr (Splitter_root orientation) /\
  children self = cs /\
  length (panes self) = length cs - 1 /\
  panes self = map Own (seq 1 (length cs - 1)) /\
  made self = Nat.max 1 (length cs).
Proof.
  cbn zeta. destruct (chain_inv_add_children orientation cs)
    as [Hw Hc Hp Hm _ _ _ _].
  split; [apply Splitter_init_run|]. split; [exact Hc|].
  split; [rewrite Hp, length_map, length_seq; reflexivity|].
  split; [exact Hp | exact Hm].
Qed.

(** X14. The panes of a splitter form a chain, whatever the number of
    children: child [i] (counting from 0) is in the first slot of pane
    [i], the root pane being pane 0; the second slot of pane [i] holds
    pane [i + 1] when there is a later child and is empty for the last
    child.  No child is ever in a second slot. *)
Theorem X14_splitter_chain (orientation : string) (cs : list Widget)
    (i : nat) (c : Widget) :
  cs !! i = Some c ->
  let self := add_children cs (Splitter_root orientation) in
  paned (gtk self) (pane_of_child i)
  = {| child1 := Some (get_widget c);
       child2 := if bool_decide (S i < length cs)
                 then Some (pane_of_child (S i)) else None |}.
Proof.
  intros Hi. cbn zeta. unfold pane_of_child.
  destruct (chain_inv_add_children orientation cs)
    as [_ _ _ _ Hs1 Hs2 Hl _].
  specialize (Hs1 i c Hi).
  destruct (paned (gtk (add_children cs (Splitter_root orientation))) (Own i))
    as [x1 x2] eqn:E.
  cbn [child1] in Hs1. subst x1. f_equal.
  destruct (decide (S i < length cs)) as [Hlt | Hge].
  - rewrite bool_decide_eq_true_2 by exact Hlt.
    specialize (Hs2 i Hlt). rewrite E in Hs2. exact Hs2.
  - rewrite bool_decide_eq_false_2 by exact Hge.
    specialize (Hl i ltac:(lia)). rewrite E in Hl. exact Hl.
Qed.

Lemma X14_splitter_chain_witness :
  let c0 := {| oid := 1; handle := 101 |} in
  let c1 := {| oid := 2; handle := 102 |} in
  let cs := [c0; c1] in
  cs !! 1 = Some c1 /\
  paned (gtk (add_children cs (Splitter_root "vertical"))) (pane_of_child 1)
  = {| child1 := Some (get_widget c1); child2 := None |}.
Proof.
  cbn zeta.
  assert ([{| oid := 1; handle := 101 |}; {| oid := 2; handle := 102 |}] !! 1
          = Some {| oid := 2; handle := 102 |}) as H by reflexivity.
  split; [exact H|].
  exact (X14_splitter_chain "vertical" _ 1 _ H).
Defined.

End SplitterChainProofs.

(** ** TreeView: which trees are accepted, and what the model is like *)

Section TreeViewMoreProofs.
Import Py TreeView.

Lemma row_values_length node columns l :
  row_values node columns = inr l -> length l = length columns.
Proof.
  revert l. induction columns as [|hdr rest IH]; intros l H; simpl in H.
  - injection H as <-. reflexivity.
  - destruct (getitem node hdr); [discriminate|].
    destruct (row_values node rest) as [|l']; [discriminate|].
    injection H as <-. simpl. rewrite (IH l' eq_refl). reflexivity.
Qed.

Lemma row_values_dict_ok items columns :
  ok (row_values (PDict items) columns)
  = forallb (fun hdr => bool_decide (is_Some (dict_get items hdr))) columns.
Proof.
  induction columns as [|hdr rest IH]; [reflexivity|].
  cbn [row_values getitem forallb].
  destruct (dict_get items hdr) as [v|].
  - rewrite bool_decide_eq_true_2 by (eexists; reflexivity).
    rewrite <- IH. destruct (row_values (PDict items) rest); reflexivity.
  - rewrite bool_decide_eq_false_2 by (intros [? ?]; discriminate).
    reflexivity.
Qed.

Lemma _set_subtree_ok :
  forall node columns level parent_item key model,
    ok (_set_subtree columns level parent_item key node model).2
    = accepted columns node.
Proof.
  fix IH 1. intros node columns level parent_item key model.
  destruct node as [s | b | items].
  - cbn [_set_subtree has_terminal lift bind accepted].
    destruct (is_substring "__terminal__" s).
    + destruct columns as [|hdr rest]; reflexivity.
    + unfold bind, append. cbn [fst snd].
      destruct s; reflexivity.
  - reflexivity.
  - cbn [_set_subtree has_terminal lift bind accepted].
    destruct (bool_decide (is_Some (dict_get items "__terminal__"))).
    + rewrite <- row_values_dict_ok.
      destruct (row_values (PDict items) columns); reflexivity.
    + unfold bind at 1, append. cbn [fst snd].
      generalize (Some (length model)).
      generalize (model ++ [{| parent := None; value := Branch key |}]).
      induction items as [|[k child] rest IHrest]; intros m item.
      * reflexivity.
      * unfold bind.
        pose proof (IH child columns (level + 1) item k m) as Hc.
        destruct (_set_subtree columns (level + 1) item k child m)
          as [m1 [e | []]]; cbn [snd ok] in Hc; rewrite <- Hc.
        -- reflexivity.
        -- apply IHrest.
Qed.

Lemma for_each_set_subtree_ok columns tree_dict model :
  ok (for_each tree_dict
        (fun item => _set_subtree columns 0 None item.1 item.2) model).2
  = accepted_tree columns tree_dict.
Proof.
  revert model. induction tree_dict as [|[k v] rest IH]; intros model.
  - reflexivity.
  - cbn [for_each accepted_tree forallb fst snd]. unfold bind.
    pose proof (_set_subtree_ok v columns 0 None k model) as Hc.
    destruct (_set_subtree columns 0 None k v model) as [m1 [e | []]];
      cbn [snd ok] in Hc; rewrite <- Hc; [reflexivity | apply IH].
Qed.

(** X15. [set_tree] raises exactly when the tree holds a node that
    [_set_subtree] cannot take: it succeeds if and only if every node it
    reaches is a terminal with a value for every header or a branch of
    such nodes.  It is all or nothing: when it raises, the view keeps the
    model and everything else it had; when it succeeds the headers are
    kept and the view is expanded only if [auto_expand] is set. *)
Theorem X15_set_tree_accepts (self : TreeView)
    (tree_dict : list (string * PyVal)) :
  ((set_tree self tree_dict).2 = inr tt
   <-> accepted_tree (columns self) tree_dict = true) /\
  ((set_tree self tree_dict).2 <> inr tt -> (set_tree self tree_dict).1 = self) /\
  columns (set_tree self tree_dict).1 = columns self /\
  ((set_tree self tree_dict).2 = inr tt ->
   expanded (set_tree self tree_dict).1 = auto_expand self).
Proof.
  pose proof (for_each_set_subtree_ok (columns self) tree_dict []) as Hok.
  unfold set_tree.
  destruct (for_each tree_dict _ []) as [m [e | []]]; cbn [snd ok fst] in *.
  - rewrite <- Hok. repeat split; try discriminate; reflexivity.
  - rewrite <- Hok. repeat split; try reflexivity. congruence.
Qed.

Lemma rows_width_append columns model p v :
  rows_width columns model ->
  (match v with Row l => length l = length columns | Branch _ => True end) ->
  rows_width columns (model ++ [{| parent := p; value := v |}]).
Proof.
  intros Hm Hv. apply Forall_app. split; [exact Hm|]. repeat constructor.
  exact Hv.
Qed.

Lemma is_branch_app model ext p :
  is_branch model p -> is_branch (model ++ ext) p.
Proof.
  intros [key H]. exists key. apply lookup_app_l_Some, H.
Qed.

Lemma parents_ok_append model p v :
  parents_ok model ->
  (forall q, p = Some q -> is_branch model q /\ exists l, v = Row l) ->
  parents_ok (model ++ [{| parent := p; value := v |}]).
Proof.
  intros Hm Hp i r q Hi Hq.
  apply lookup_app_Some in Hi as [Hi | [Hge Hi]].
  - destruct (Hm i r q Hi Hq) as (Hlt & Hb & Hr).
    split; [exact Hlt|]. split; [apply is_branch_app, Hb | exact Hr].
  - destruct (i - length model) as [|k] eqn:E; [|destruct k; inversion Hi].
    injection Hi as <-. cbn [parent value] in *.
    destruct (Hp q Hq) as [Hb Hr]. split.
    + destruct Hb as [key Hk]. apply lookup_lt_Some in Hk. lia.
    + split; [apply is_branch_app, Hb | exact Hr].
Qed.

(** What [_set_subtree] keeps: the width of the terminal rows, the shape
    of the parent links, and the rows already in the store. *)
Lemma _set_subtree_inv :
  forall node columns level parent_item key model,
    rows_width columns model -> parents_ok model ->
    (forall q, parent_item = Some q -> is_branch model q) ->
    let m' := (_set_subtree columns level parent_item key node model).1 in
    rows_width columns m' /\ parents_ok m' /\ exists ext, m' = model ++ ext.
Proof.
  fix IH 1. intros node columns level parent_item key model Hw Hp Hq.
  set (P := fun m' : TreeStore =>
              rows_width columns m' /\ parents_ok m' /\
              exists ext, m' = model ++ ext).
  change (P (_set_subtree columns level parent_item key node model).1).
  assert (forall l, length l = length columns ->
            P (model ++ [{| parent := parent_item; value := Row l |}]))
    as Hterm.
  { intros l Hl. split; [apply rows_width_append; assumption|].
    split; [|eexists; reflexivity].
    apply parents_ok_append; [exact Hp|].
    intros q E. split; [apply Hq, E | eexists; reflexivity]. }
  assert (P (model ++ [{| parent := None; value := Branch key |}]) /\
          is_branch (model ++ [{| parent := None; value := Branch key |}])
                    (length model)) as [Hbranch Hitem].
  { split; [split; [|split]|].
    - apply rows_width_append; [exact Hw | exact I].
    - apply parents_ok_append; [exact Hp | discriminate].
    - eexists; reflexivity.
    - exists key. apply list_lookup_middle. reflexivity. }
  assert (P model) as Hsame.
  { split; [exact Hw|]. split; [exact Hp|]. exists []. rewrite app_nil_r.
    reflexivity. }
  destruct node as [s | b | items].
  - cbn [_set_subtree has_terminal lift bind].
    destruct (is_substring "__terminal__" s).
    + destruct (row_values (PStr s) columns) as [e | l] eqn:El;
        [exact Hsame|].
      unfold bind, append, ret. cbn [fst snd].
      apply Hterm, (row_values_length _ _ _ El).
    + unfold bind, append. cbn [fst snd]. destruct s; exact Hbranch.
  - exact Hsame.
  - cbn [_set_subtree has_terminal lift bind].
    destruct (bool_decide (is_Some (dict_get items "__terminal__"))).
    + destruct (row_values (PDict items) columns) as [e | l] eqn:El;
        [exact Hsame|].
      unfold bind, append, ret. cbn [fst snd].
      apply Hterm, (row_values_length _ _ _ El).
    + unfold bind at 1, append. cbn [fst snd].
      revert Hbranch Hitem.
      generalize (model ++ [{| parent := None; value := Branch key |}]).
      clear Hterm Hsame.
      induction items as [|[k child] rest IHrest]; intros m Hm H3.
      * exact Hm.
      * unfold bind. destruct Hm as (H1 & H2 & ext0 & H4).
        assert (forall q, Some (length model) = Some q -> is_branch m q) as Hq'
          by (intros q E; injection E as <-; exact H3).
        pose proof (IH child columns (level + 1) (Some (length model)) k m
                      H1 H2 Hq') as (G1 & G2 & ext & G3).
        assert (P (_set_subtree columns (level + 1) (Some (length model)) k
                     child m).1) as HP.
        { split; [exact G1|]. split; [exact G2|]. exists (ext0 ++ ext).
          rewrite G3, H4, app_assoc. reflexivity. }
        destruct (_set_subtree columns (level + 1) (Some (length model)) k
                    child m) as [m1 [e | []]]; cbn [fst] in *.
        -- exact HP.
        -- apply IHrest; [exact HP|].
           rewrite G3. apply is_branch_app, H3.
Qed.

Lemma set_tree_model_inv (self : TreeView) tree_dict :
  (set_tree self tree_dict).2 = inr tt ->
  rows_width (columns self) (model (set_tree self tree_dict).1) /\
  parents_ok (model (set_tree self tree_dict).1).
Proof.
  unfold set_tree.
  assert (forall items m,
    rows_width (columns self) m -> parents_ok m ->
    let m' := (for_each items
      (fun item => _set_subtree (columns self) 0 None item.1 item.2) m).1 in
    rows_width (columns self) m' /\ parents_ok m') as H.
  { induction items as [|[k v] rest IHr]; intros m Hw Hp.
    - split; assumption.
    - cbn [for_each fst snd]. unfold bind.
      pose proof (_set_subtree_inv v (columns self) 0 None k m Hw Hp
                    ltac:(discriminate)) as (G1 & G2 & _).
      destruct (_set_subtree (columns self) 0 None k v m) as [m1 [e | []]];
        cbn [fst] in *; [split; assumption|].
      apply IHr; assumption. }
  specialize (H tree_dict [] (Forall_nil_2 _)).
  assert (parents_ok []) as Hnil by (intros i r p Hi; inversion Hi).
  specialize (H Hnil). cbn zeta in H.
  destruct (for_each tree_dict _ []) as [m [e | []]]; cbn [fst snd model].
  - discriminate.
  - intros _. exact H.
Qed.

(** X16. [set_headers] appends one column per header to the columns
    the view already has, and [set_tree] leaves the columns alone.  In a
    model that [set_tree] has built every terminal row holds exactly one
    value per current header.  So a column of the view whose index is
    below the number of headers renders every row: column 0 shows the
    key of a branch and the first value of a terminal, the other columns
    show nothing for a branch and their own value for a terminal.  That
    is every column of a view whose headers were declared once.  A
    column left over from an earlier, longer declaration, its index not
    below the number of headers, still renders a branch but raises
    [IndexError] on every terminal row. *)
Theorem X16_cells_render (self : TreeView) tree_dict (r : TreeRow) (n : nat) :
  (set_tree self tree_dict).2 = inr tt ->
  r ∈ model (set_tree self tree_dict).1 ->
  n ∈ tv_columns (set_tree self tree_dict).1 ->
  n ∈ tv_columns self /\
  match value r with
  | Branch key =>
      column_fn n (value r) = inr (PStr (if n is 0 then key else ""))
  | Row l =>
      length l = length (columns self) /\
      (n < length (columns self) ->
       exists v, l !! n = Some v /\ column_fn n (value r) = inr v) /\
      (length (columns self) <= n ->
       exists msg, column_fn n (value r) = inl (IndexError msg))
  end /\
  (tv_columns self = seq 0 (length (columns self)) ->
   n < length (columns self)) /\
  (forall hdrs,
     columns (set_headers self hdrs) = hdrs /\
     tv_columns (set_headers self hdrs)
     = tv_columns self ++ seq 0 (length hdrs)) /\
  (forall auto_expand sortable hdrs,
     let new := set_headers (__init__ auto_expand sortable) hdrs in
     tv_columns new = seq 0 (length (columns new))).
Proof.
  intros Hok Hr Hn.
  assert (tv_columns (set_tree self tree_dict).1 = tv_columns self) as Htv.
  { unfold set_tree. destruct (for_each tree_dict _ []) as [m [e | []]];
      reflexivity. }
  rewrite Htv in Hn. split; [exact Hn|].
  destruct (set_tree_model_inv self tree_dict Hok) as [Hw _].
  unfold rows_width in Hw. rewrite Forall_forall in Hw.
  specialize (Hw r Hr).
  split; [|split; [|split; [intros hdrs; split; reflexivity | reflexivity]]].
  - destruct (value r) as [key | l].
    + destruct n; reflexivity.
    + split; [exact Hw|]. split.
      * intros Hlt.
        destruct (lookup_lt_is_Some_2 l n) as [v Hv]; [lia|].
        exists v. split; [exact Hv|].
        destruct n; cbn [column_fn _mkcolfn0 _mkcolfnN]; unfold getindex;
          rewrite Hv; reflexivity.
      * intros Hge.
        assert (l !! n = None) as Hv by (apply lookup_ge_None_2; lia).
        destruct n; cbn [column_fn _mkcolfn0 _mkcolfnN]; unfold getindex.
        -- assert (l = []) as -> by (destruct l; [reflexivity | simpl in *; lia]).
           eexists; reflexivity.
        -- rewrite Hv. eexists; reflexivity.
  - intros Hseq. rewrite Hseq in Hn. apply elem_of_seq in Hn. lia.
Qed.

Lemma X16_cells_render_witness :
  let self := set_headers (set_headers (__init__ false false)
                             ["Name"; "Value"; "Unit"]) ["Name"] in
  let tree := [("g1", PDict [("x", PDict [("__terminal__", PBool true);
                                          ("Name", PStr "x")])])] in
  let r := {| parent := Some 0; value := Row [PStr "x"] |} in
  (set_tree self tree).2 = inr tt /\
  (r ∈ model (set_tree self tree).1) /\
  (2 ∈ tv_columns (set_tree self tree).1) /\
  (0 ∈ tv_columns (set_tree self tree).1) /\
  (exists v, column_fn 0 (value r) = inr v) /\
  (exists msg, column_fn 2 (value r) = inl (IndexError msg)).
Proof.
  cbn zeta.
  set (self := set_headers (set_headers (__init__ false false)
                              ["Name"; "Value"; "Unit"]) ["Name"]).
  set (tree := [("g1", PDict [("x", PDict [("__terminal__", PBool true);
                                           ("Name", PStr "x")])])]).
  set (r := {| parent := Some 0; value := Row [PStr "x"] |}).
  assert ((set_tree self tree).2 = inr tt) as H1 by reflexivity.
  assert (r ∈ model (set_tree self tree).1) as H2 by (right; left).
  assert (2 ∈ tv_columns (set_tree self tree).1) as H3
    by (right; right; left).
  assert (0 ∈ tv_columns (set_tree self tree).1) as H4 by left.
  split; [exact H1|]. split; [exact H2|]. split; [exact H3|].
  split; [exact H4|]. split.
  - destruct (X16_cells_render self tree r 0 H1 H2 H4)
      as (_ & (_ & Hlt & _) & _).
    destruct (Hlt ltac:(simpl; lia)) as (v & _ & Hv). exists v. exact Hv.
  - destruct (X16_cells_render self tree r 2 H1 H2 H3)
      as (_ & (_ & _ & Hge) & _).
    exact (Hge ltac:(simpl; lia)).
Defined.

Lemma children_of_lt model p it :
  it ∈ children_of model p ->
  exists r, model !! it = Some r /\ parent r = p.
Proof.
  unfold children_of. intros H.
  apply list_elem_of_filter in H as [Hp _].
  apply bool_decide_unpack in Hp.
  destruct (model !! it) as [r|]; [|discriminate].
  exists r. split; [reflexivity|]. simpl in Hp. congruence.
Qed.

Lemma get_iter_row model path it :
  get_iter model path = inr it -> exists r, model !! it = Some r.
Proof.
  unfold get_iter.
  assert (forall cur, get_iter_from model cur path = inr (Some it) ->
            cur = Some it \/ exists r, model !! it = Some r) as H.
  { induction path as [|i rest IH]; intros cur Hg; simpl in Hg.
    - left. congruence.
    - destruct (children_of model cur !! i) as [c|] eqn:E; [|discriminate].
      destruct (IH (Some c) Hg) as [Hc | Hr]; [|right; exact Hr].
      injection Hc as ->. right.
      apply list_elem_of_lookup_2 in E.
      destruct (children_of_lt _ _ _ E) as (r & Hr & _). eauto. }
  destruct (get_iter_from model None path) as [e | [c|]] eqn:E;
    try discriminate.
  intros Hc. injection Hc as ->.
  destruct (H None E) as [Hn | Hr]; [discriminate | exact Hr].
Qed.

(** X17. On a view that [set_tree] has built, whatever row the cursor
    moves to: a ['selected'] callback is only ever made for a terminal
    row that hangs under a branch row, and what it carries is the key of
    that very branch row and the first value of the terminal row.
    Conversely the callback is made whenever the path leads to such a
    row.  If at least one header is declared, the only exception
    [_cb_redirect] can raise is the one of a path that names no row. *)
Theorem X17_selected_payload (self : TreeView) tree_dict (path : list nat) :
  (set_tree self tree_dict).2 = inr tt ->
  let view := (set_tree self tree_dict).1 in
  (forall sel, _cb_redirect view path = inr (Some sel) ->
     exists child p key v l,
       get_iter (model view) path = inr child /\
       model view !! child
       = Some {| parent := Some p; value := Row (v :: l) |} /\
       model view !! p = Some {| parent := None; value := Branch key |} /\
       sel = {| top_name := Branch key; item_name := v |}) /\
  (forall child p key v l,
     get_iter (model view) path = inr child ->
     model view !! child
     = Some {| parent := Some p; value := Row (v :: l) |} ->
     model view !! p = Some {| parent := None; value := Branch key |} ->
     _cb_redirect view path
     = inr (Some {| top_name := Branch key; item_name := v |})) /\
  (columns self <> [] ->
   forall e, _cb_redirect view path = inl e ->
     e = ValueError "invalid tree path").
Proof.
  intros Hok view.
  destruct (set_tree_model_inv self tree_dict Hok) as [Hw Hp].
  fold view in Hw, Hp.
  split; [|split].
  2: { intros child p key v l Hg Hc Hk. unfold _cb_redirect, iter_parent.
       rewrite Hg. cbn beta iota. rewrite Hc.
       cbn [mbind option_bind parent]. rewrite Hk. reflexivity. }
  all: unfold _cb_redirect.
  all: destruct (get_iter (model view) path) as [e | child] eqn:Hg.
  1, 3: try discriminate.
  - intros _ e' He. injection He as <-.
    unfold get_iter in Hg.
    destruct (get_iter_from (model view) None path) as [e0 | [c|]] eqn:E;
      try discriminate; [|congruence].
    injection Hg as <-. clear -E.
    revert E. generalize (@None nat).
    induction path as [|i rest IH]; intros cur E; simpl in E; [discriminate|].
    destruct (children_of (model view) cur !! i); [eauto | congruence].
  - destruct (get_iter_row _ _ _ Hg) as [crow Hc].
    unfold iter_parent. rewrite Hc. cbn [mbind option_bind].
    destruct (parent crow) as [p|] eqn:Hpar; [|discriminate].
    destruct (Hp child crow p Hc Hpar) as (_ & [key Hk] & [l Hl]).
    rewrite Hk. cbn [value]. rewrite Hl.
    destruct l as [|v l]; cbn [first_item]; [discriminate|].
    intros sel Hsel. injection Hsel as <-.
    exists child, p, key, v, l.
    split; [reflexivity|]. split; [|split; [exact Hk | reflexivity]].
    rewrite Hc. destruct crow as [cp cv]. cbn [parent value] in *.
    subst. reflexivity.
  - destruct (get_iter_row _ _ _ Hg) as [crow Hc].
    unfold iter_parent. rewrite Hc. cbn [mbind option_bind].
    destruct (parent crow) as [p|] eqn:Hpar; [|discriminate].
    destruct (Hp child crow p Hc Hpar) as (_ & [key Hk] & [l Hl]).
    rewrite Hk. cbn [value]. rewrite Hl.
    unfold rows_width in Hw. rewrite Forall_forall in Hw.
    specialize (Hw crow (list_elem_of_lookup_2 _ _ _ Hc)). rewrite Hl in Hw.
    destruct l as [|v l]; cbn [first_item]; [|discriminate].
    intros Hne. destruct (columns self); [congruence|]. simpl in Hw. lia.
Qed.

Lemma X17_selected_payload_witness :
  let self := set_headers (__init__ false false) ["Name"; "Value"] in
  (set_tree self example_tree).2 = inr tt /\
  forall sel, _cb_redirect (set_tree self example_tree).1 [0; 0]
              = inr (Some sel) ->
    exists child p key v l,
      get_iter (model (set_tree self example_tree).1) [0; 0] = inr child /\
      model (set_tree self example_tree).1 !! child
      = Some {| parent := Some p; value := Row (v :: l) |} /\
      model (set_tree self example_tree).1 !! p
      = Some {| parent := None; value := Branch key |} /\
      sel = {| top_name := Branch key; item_name := v |}.
Proof.
  cbn zeta.
  assert ((set_tree (set_headers (__init__ false false) ["Name"; "Value"])
             example_tree).2 = inr tt) as H1 by reflexivity.
  split; [exact H1|].
  exact (proj1 (X17_selected_payload _ _ [0; 0] H1)).
Defined.

End TreeViewMoreProofs.

(** ** Application: lookups, explicit ids and runs of [make_window] *)

Section ApplicationMoreProofs.
Import Py Application.

(** X18. [get_window] and [has_window] agree: [get_window] returns the
    window registered under the id exactly when [has_window] says there
    is one, and raises [KeyError] with the id otherwise; [get_wids]
    lists exactly the ids [has_window] accepts, each once.  A fresh
    application has no window. *)
Theorem X18_registry_lookup (self : Application) (wid : string) :
  (has_window self wid = true <-> exists w, get_window self wid = inr w) /\
  (has_window self wid = false <-> get_window self wid = inl (KeyError wid)) /\
  (wid ∈ get_wids self <-> has_window self wid = true) /\
  NoDup (get_wids self) /\
  get_window __init__ wid = inl (KeyError wid) /\
  get_wids __init__ = [].
Proof.
  unfold has_window, get_window, get_wids.
  split; [|split; [|split; [|split; [|split]]]].
  - destruct (window_dict self !! wid) as [w|]; split.
    + eauto.
    + intros _. apply bool_decide_eq_true_2. eauto.
    + intros H. apply bool_decide_eq_true_1 in H as [? ?]. discriminate.
    + intros [w H]. discriminate.
  - destruct (window_dict self !! wid) as [w|]; split.
    + intros H. apply bool_decide_eq_false_1 in H. exfalso. apply H. eauto.
    + discriminate.
    + reflexivity.
    + intros _. apply bool_decide_eq_false_2. intros [? ?]. discriminate.
  - rewrite bool_decide_eq_true, list_elem_of_fmap. split.
    + intros [[k w] [-> H]]. apply elem_of_map_to_list in H. eauto.
    + intros [w H]. exists (wid, w). split; [reflexivity|].
      apply elem_of_map_to_list. exact H.
  - apply NoDup_fst_map_to_list.
  - reflexivity.
  - unfold __init__. cbn [window_dict]. rewrite map_to_list_empty. reflexivity.
Qed.


Lemma format_d_inj (n m : nat) : format_d n = format_d m -> n = m.
Proof.
  unfold format_d. intros H.
  assert (Some (Nat.to_uint n) = Some (Nat.to_uint m)) as E
    by (rewrite <- !NilEmpty.usu, H; reflexivity).
  injection E as E.
  rewrite <- (DecimalNat.Unsigned.of_to n), <- (DecimalNat.Unsigned.of_to m), E.
  reflexivity.
Qed.

Lemma auto_wid_inj (n m : nat) : auto_wid n = auto_wid m -> n = m.
Proof.
  unfold auto_wid. intros H. apply format_d_inj.
  change (String.append "win" (format_d n))
    with (String "w" (String "i" (String "n" (format_d n)))) in H.
  change (String.append "win" (format_d m))
    with (String "w" (String "i" (String "n" (format_d m)))) in H.
  congruence.
Qed.

Lemma make_window_run (self : Application) (title : option string) :
  make_window self title
  = ({| window_dict :=
          <[auto_wid (wincnt self) :=
              {| title := title; wid := Some (auto_wid (wincnt self));
                 url := Some "" |}]> (window_dict self);
        wincnt := wincnt self + 1 |},
     {| title := title; wid := Some (auto_wid (wincnt self));
        url := Some "" |}).
Proof. reflexivity. Qed.

Lemma make_windows_spec (titles : list (option string)) :
  forall self : Application,
    let self' := (make_windows titles self).1 in
    let ws := (make_windows titles self).2 in
    wincnt self' = wincnt self + length titles /\
    ws = imap (fun i title =>
                 {| title := title; wid := Some (auto_wid (wincnt self + i));
                    url := Some "" |}) titles /\
    (forall i w, ws !! i = Some w ->
       window_dict self' !! auto_wid (wincnt self + i) = Some w) /\
    (forall k, (forall i, i < length titles -> k <> auto_wid (wincnt self + i)) ->
       window_dict self' !! k = window_dict self !! k).
Proof.
  induction titles as [|t ts IH]; intros self; cbn zeta.
  - cbn [make_windows fst snd length imap]. repeat split.
    + lia.
    + intros i w H. inversion H.
  - cbn [make_windows]. rewrite make_window_run.
    specialize (IH {| window_dict :=
                        <[auto_wid (wincnt self) :=
                            {| title := t; wid := Some (auto_wid (wincnt self));
                               url := Some "" |}]> (window_dict self);
                      wincnt := wincnt self + 1 |}).
    cbn zeta in IH. cbn [wincnt window_dict] in IH.
    destruct (make_windows ts _) as [s2 ws]. cbn [fst snd] in *.
    destruct IH as (Hc & Hws & Hnew & Hold).
    split; [cbn [length]; lia|]. split; [|split].
    + cbn [imap]. rewrite Nat.add_0_r. f_equal. rewrite Hws.
      apply imap_ext. intros i x _. cbn. do 3 f_equal. lia.
    + intros i w Hi. destruct i as [|i].
      * injection Hi as <-. rewrite Nat.add_0_r.
        rewrite Hold; [apply lookup_insert_eq|].
        intros i _ E. apply auto_wid_inj in E. lia.
      * replace (wincnt self + S i) with (wincnt self + 1 + i) by lia.
        apply Hnew, Hi.
    + intros k Hk. rewrite Hold.
      * apply lookup_insert_ne. specialize (Hk 0 ltac:(cbn [length]; lia)).
        rewrite Nat.add_0_r in Hk. congruence.
      * intros i Hi. specialize (Hk (S i) ltac:(cbn [length]; lia)).
        replace (wincnt self + 1 + i) with (wincnt self + S i) by lia.
        exact Hk.
Qed.

(** X20. A run of [make_window] calls on any registry: the call number
    [i] of the run gets the id made from the counter's value plus [i], so
    the ids of the run are pairwise distinct; the counter ends advanced
    by the number of calls; every window of the run is found under its
    id afterwards, none having been overwritten by a later call of the
    run; and entries whose ids are not among those are untouched. *)
Theorem X20_make_windows_ids (titles : list (option string))
    (self : Application) :
  let self' := (make_windows titles self).1 in
  let ws := (make_windows titles self).2 in
  length ws = length titles /\
  wincnt self' = wincnt self + length titles /\
  (forall i w, ws !! i = Some w ->
     wid w = Some (auto_wid (wincnt self + i)) /\
     title w = titles !!! i /\
     get_window self' (auto_wid (wincnt self + i)) = inr w) /\
  NoDup (wid <$> ws) /\
  (forall k, (forall i, i < length titles -> k <> auto_wid (wincnt self + i)) ->
     get_window self' k = get_window self k).
Proof.
  cbn zeta.
  destruct (make_windows_spec titles self) as (Hc & Hws & Hnew & Hold).
  split; [rewrite Hws; apply length_imap|]. split; [exact Hc|].
  split; [|split].
  - intros i w Hi. unfold get_window. rewrite (Hnew i w Hi).
    rewrite Hws in Hi. apply list_lookup_imap_Some in Hi as (t & Ht & ->).
    cbn [wid title]. repeat split.
    rewrite (list_lookup_total_correct _ _ _ Ht). reflexivity.
  - rewrite Hws. apply NoDup_alt. intros i j x Hi Hj.
    rewrite list_lookup_fmap in Hi, Hj.
    destruct (imap _ titles !! i) as [wi|] eqn:Ei; [|discriminate].
    destruct (imap _ titles !! j) as [wj|] eqn:Ej; [|discriminate].
    apply list_lookup_imap_Some in Ei as (ti & _ & ->).
    apply list_lookup_imap_Some in Ej as (tj & _ & ->).
    cbn in Hi, Hj.
    assert (auto_wid (wincnt self + i) = auto_wid (wincnt self + j)) as E
      by congruence.
    apply auto_wid_inj in E. lia.
  - intros k Hk. unfold get_window. rewrite (Hold k Hk). reflexivity.
Qed.

End ApplicationMoreProofs.

(** ** StatusBar: one message, one pending auto-clear *)

Section StatusBarProofs.
Import StatusBar.

Lemma remove_all_same (st : list (nat * string)) :
  (forall m, m ∈ st -> m.1 = status_ctx) -> remove_all status_ctx st = [].
Proof.
  unfold remove_all. induction st as [|m st IH]; intros H; [reflexivity|].
  rewrite filter_cons_False.
  - apply IH. intros x Hx. apply H. right. exact Hx.
  - intros Hne. apply Hne, H. left.
Qed.

Lemma set_message_state (self : StatusBar) (msg_str : string) :
  reachable_inv self ->
  set_message self msg_str
  = {| ctx_id := Some status_ctx; statustask := Some (next_source self);
       stack := [(status_ctx, msg_str)];
       sources := [(next_source self, status_ctx)];
       next_source := S (next_source self) |}.
Proof.
  intros [Hn Hc Hu Hs Hsrc]. unfold set_message. f_equal.
  - f_equal. destruct (ctx_id self) as [c|] eqn:E.
    + rewrite (Hc c eq_refl). apply remove_all_same, Hs.
    + apply Hu. reflexivity.
  - destruct Hsrc as [-> | (task & -> & -> & Hne)].
    + destruct (statustask self) as [t|]; [destruct (t =? 0)%nat|];
        reflexivity.
    + apply Nat.eqb_neq in Hne. rewrite Hne. unfold source_remove.
      rewrite filter_cons_False by (cbn; tauto). reflexivity.
Qed.

Lemma set_message_inv (self : StatusBar) (msg_str : string) :
  reachable_inv self -> reachable_inv (set_message self msg_str).
Proof.
  intros H. rewrite (set_message_state self msg_str H).
  destruct H as [Hn _ _ _ _]. split; cbn.
  - lia.
  - congruence.
  - discriminate.
  - intros m Hm. apply list_elem_of_singleton in Hm. subst m. reflexivity.
  - right. exists (next_source self). repeat split. lia.
Qed.

Lemma timeout_inv (self : StatusBar) (id : nat) :
  reachable_inv self -> reachable_inv (timeout self id).
Proof.
  intros H. unfold timeout.
  destruct (list_find _ (sources self)) as [[i [t ctx]]|] eqn:E; [|exact H].
  destruct H as [Hn Hc Hu Hs Hsrc].
  apply list_find_Some in E as (Hl & Ht & _). cbn in Ht. subst t.
  destruct Hsrc as [Hnil | (task & Hsrc & Htask & Hne)].
  { rewrite Hnil in Hl. destruct i; discriminate. }
  rewrite Hsrc in Hl. destruct i as [|i]; [|destruct i; discriminate].
  injection Hl as <- <-.
  split; cbn [next_source ctx_id stack sources statustask].
  - exact Hn.
  - exact Hc.
  - intros Hnone. rewrite (Hu Hnone). reflexivity.
  - intros m Hm. rewrite remove_all_same in Hm by exact Hs. inversion Hm.
  - left. rewrite Hsrc. unfold source_remove.
    rewrite filter_cons_False by (cbn; tauto). reflexivity.
Qed.

Lemma run_inv (evs : list Event) (self : StatusBar) :
  reachable_inv self -> reachable_inv (run evs self).
Proof.
  revert self. induction evs as [|ev evs IH]; intros self H; [exact H|].
  cbn [run foldl]. apply IH. destruct ev; cbn [step].
  - apply set_message_inv, H.
  - apply timeout_inv, H.
Qed.

Lemma init_inv : reachable_inv __init__.
Proof.
  split; cbn; try discriminate; try lia; try tauto.
  intros m Hm. inversion Hm.
Qed.

(** X21. Whatever [set_message] calls and timeouts came before, the
    status bar never has more than one auto-clear pending.  Right after
    [set_message(m)] the message on display is [m], it is the only
    message on the stack, and exactly one auto-clear is pending, the one
    this call scheduled: the auto-clear of the message before was
    cancelled.  When that auto-clear runs the display is cleared and
    nothing is pending; a timeout that was cancelled changes nothing. *)
Theorem X21_status_bar_single_timer (evs : list Event) (m : string)
    (id : nat) :
  let before := run evs __init__ in
  let self := set_message before m in
  length (sources before) <= 1 /\
  displayed self = Some m /\
  stack self = [(status_ctx, m)] /\
  sources self = [(next_source before, status_ctx)] /\
  statustask self = Some (next_source before) /\
  displayed (timeout self (next_source before)) = None /\
  sources (timeout self (next_source before)) = [] /\
  (id <> next_source before -> timeout self id = self).
Proof.
  cbn zeta. pose proof (run_inv evs __init__ init_inv) as H.
  rewrite (set_message_state _ m H).
  split.
  { destruct H as [_ _ _ _ [-> | (t & -> & _)]]; simpl; lia. }
  unfold displayed, timeout. cbn [stack sources head fmap option_fmap option_map
                                  snd statustask list_find].
  rewrite decide_True by reflexivity. cbn.
  rewrite decide_False by tauto. rewrite decide_False by (cbn; tauto).
  repeat split.
  intros Hne. rewrite decide_False by (cbn; congruence). reflexivity.
Qed.

Lemma X21_status_bar_single_timer_witness :
  let before := run [SetMessage "a"] __init__ in
  let self := set_message before "b" in
  3 <> next_source before /\
  displayed self = Some "b" /\
  length (sources self) = 1 /\
  timeout self 3 = self.
Proof.
  cbn zeta.
  assert (3 <> next_source (run [SetMessage "a"] __init__)) as H
    by (cbn; lia).
  split; [exact H|].
  pose proof (X21_status_bar_single_timer [SetMessage "a"] "b" 3)
    as (_ & Hd & _ & Hs & _ & _ & _ & Hstale).
  split; [exact Hd|]. split; [rewrite Hs; reflexivity | exact (Hstale H)].
Defined.

End StatusBarProofs.

(** ** Image: clicks *)

Section ImageProofs.
Import Image.

Lemma run_app (a b : list Signal) (self : Image) :
  run (a ++ b) self
  = ((run b (run a self).1).1, (run a self).2 ++ (run b (run a self).1).2).
Proof.
  revert self. induction a as [|sig a IH]; intros self.
  - cbn [app run fst snd]. destruct (run b self); reflexivity.
  - cbn [app run]. destruct (deliver self sig) as [s1 e1].
    rewrite IH. destruct (run a s1) as [s2 e2]. cbn [fst snd].
    destruct (run b s2) as [s3 e3]. cbn [fst snd].
    rewrite app_assoc. reflexivity.
Qed.

Lemma activations_app a b : activations (a ++ b) = activations a + activations b.
Proof. unfold activations. rewrite filter_app, length_app. reflexivity. Qed.

(** One signal: an activation needs a pending click and uses it up; a
    click becomes pending only by a primary press. *)
Lemma deliver_cases (self : Image) (sig : Signal) :
  menu (deliver self sig).1 = menu self /\
  (if is_primary_release sig && bool_decide (_action self = Some "click")
   then activations (deliver self sig).2 = 1 /\ _action (deliver self sig).1 = None
   else activations (deliver self sig).2 = 0 /\
        _action (deliver self sig).1
        = if is_primary_press sig then Some "click" else _action self).
Proof.
  destruct sig as [e | e]; cbn [deliver is_primary_release is_primary_press
                                 andb].
  - unfold _cb_redirect1.
    destruct (bool_decide (type e = BUTTON_PRESS)); cbn [andb];
      [|repeat split].
    destruct (button e =? 1)%Z; [repeat split|].
    destruct (menu self) eqn:Em; [destruct (button e =? 3)%Z|]; repeat split;
      exact Em.
  - unfold _cb_redirect2.
    destruct (bool_decide (type e = BUTTON_RELEASE)); cbn [andb];
      [|repeat split].
    destruct (button e =? 1)%Z; cbn [andb]; [|repeat split].
    destruct (bool_decide (_action self = Some "click")); repeat split.
Qed.

Lemma run_activations_bound (sigs : list Signal) (self : Image) :
  activations (run sigs self).2 + pending (run sigs self).1
  <= pending self + length (filter (fun s => is_primary_press s = true) sigs).
Proof.
  revert self. induction sigs as [|sig sigs IH]; intros self.
  - cbn. lia.
  - cbn [run]. pose proof (deliver_cases self sig) as [_ Hd].
    destruct (deliver self sig) as [s1 e1]. cbn [fst snd] in Hd.
    specialize (IH s1). destruct (run sigs s1) as [s2 e2]. cbn [fst snd] in *.
    rewrite activations_app.
    assert (activations e1 + pending s1
            <= pending self + (if is_primary_press sig then 1 else 0)) as Hstep.
    { unfold pending.
      destruct (is_primary_release sig); cbn [andb] in Hd.
      - destruct (bool_decide (_action self = Some "click")) eqn:Eb;
          destruct Hd as [Ha Hs]; rewrite Ha, Hs.
        + rewrite (bool_decide_eq_false_2 (None = _)) by discriminate.
          destruct (is_primary_press sig); lia.
        + destruct (is_primary_press sig).
          * rewrite bool_decide_eq_true_2 by reflexivity. lia.
          * rewrite Eb. lia.
      - destruct Hd as [Ha Hs]. rewrite Ha, Hs.
        destruct (is_primary_press sig).
        + rewrite bool_decide_eq_true_2 by reflexivity.
          destruct (bool_decide _); lia.
        + lia. }
    destruct (is_primary_press sig) eqn:Ep.
    + rewrite filter_cons_True by exact Ep. cbn [length]. lia.
    + rewrite filter_cons_False by (rewrite Ep; discriminate). lia.
Qed.

(** X22. However the press and release signals arrive at a new image,
    it never makes more ['activated'] callbacks than it has seen presses
    of button 1: every callback uses up one press, and a release with no
    press before it, a second release, or a release of another button
    makes none. *)
Theorem X22_image_activations_bounded (sigs : list Signal)
    (menu : option nat) :
  activations (run sigs (__init__ menu)).2
  <= length (filter (fun s => is_primary_press s = true) sigs).
Proof.
  pose proof (run_activations_bound sigs (__init__ menu)) as H.
  unfold pending at 2 in H. cbn [__init__ _action] in H.
  rewrite (bool_decide_eq_false_2 (None = _)) in H by discriminate. lia.
Qed.

Lemma run_no_release (mid : list Signal) (self : Image) :
  Forall (fun s => is_primary_release s = false) mid ->
  _action self = Some "click" ->
  activations (run mid self).2 = 0 /\ _action (run mid self).1 = Some "click".
Proof.
  revert self. induction mid as [|sig mid IH]; intros self Hmid Hact.
  - split; [reflexivity | exact Hact].
  - inversion Hmid as [|? ? Hsig Hrest]; subst.
    cbn [run]. pose proof (deliver_cases self sig) as [_ Hd].
    rewrite Hsig in Hd. cbn [andb] in Hd. destruct Hd as [Ha Hs].
    destruct (deliver self sig) as [s1 e1]. cbn [fst snd] in *.
    assert (_action s1 = Some "click") as H1
      by (rewrite Hs; destruct (is_primary_press sig); [reflexivity | exact Hact]).
    destruct (IH s1 Hrest H1) as [Ha2 Hs2].
    destruct (run mid s1) as [s2 e2]. cbn [fst snd] in *.
    rewrite activations_app, Ha, Ha2. split; [reflexivity | exact Hs2].
Qed.

(** X23. A press of button 1 followed, after any signals that are not
    a release of button 1, by a release of button 1 makes exactly one
    ['activated'] callback, at the release, in whatever state the image
    was: presses of other buttons, double clicks, releases of other
    buttons and the opening of the context menu in between do not cancel
    the pending click.  After the callback no click is pending. *)
Theorem X23_image_click (self : Image) (mid : list Signal)
    (press release : EventButton) :
  type press = BUTTON_PRESS -> button press = 1%Z ->
  type release = BUTTON_RELEASE -> button release = 1%Z ->
  Forall (fun s => is_primary_release s = false) mid ->
  let result := run (button_press_event press :: mid
                       ++ [button_release_event release]) self in
  activations result.2 = 1 /\
  _action result.1 = None /\
  activations (run (button_press_event press :: mid) self).2 = 0.
Proof.
  intros Hpt Hpb Hrt Hrb Hmid. cbn zeta.
  assert (deliver self (button_press_event press)
          = ({| _action := Some "click"; menu := menu self |}, [])) as Hp.
  { cbn [deliver]. unfold _cb_redirect1.
    rewrite bool_decide_eq_true_2 by exact Hpt. rewrite Hpb. reflexivity. }
  pose proof (run_no_release mid {| _action := Some "click"; menu := menu self |}
                Hmid eq_refl) as [Ha Hs].
  assert (forall s, _action s = Some "click" ->
            deliver s (button_release_event release)
            = ({| _action := None; menu := menu s |}, [activated])) as Hr.
  { intros s Hsc. cbn [deliver]. unfold _cb_redirect2.
    rewrite bool_decide_eq_true_2 by exact Hrt. rewrite Hrb.
    rewrite bool_decide_eq_true_2 by exact Hsc. reflexivity. }
  split; [|split].
  - cbn [run]. rewrite Hp, run_app. cbn [fst snd app].
    rewrite activations_app, Ha. cbn [run]. rewrite (Hr _ Hs). reflexivity.
  - cbn [run]. rewrite Hp, run_app. cbn [fst snd].
    cbn [run]. rewrite (Hr _ Hs). reflexivity.
  - cbn [run]. rewrite Hp.
    destruct (run mid _) as [s2 e2]. cbn [fst snd app] in *. exact Ha.
Qed.

Lemma X23_image_click_witness :
  let press := {| type := BUTTON_PRESS; button := 1 |} in
  let release := {| type := BUTTON_RELEASE; button := 1 |} in
  let mid := [button_press_event {| type := BUTTON_PRESS; button := 3 |};
              button_release_event {| type := BUTTON_RELEASE; button := 3 |}] in
  Forall (fun s => is_primary_release s = false) mid /\
  activations (run (button_press_event press :: mid
                      ++ [button_release_event release])
                   (__init__ (Some 5))).2 = 1.
Proof.
  cbn zeta.
  assert (Forall (fun s => is_primary_release s = false)
            [button_press_event {| type := BUTTON_PRESS; button := 3 |};
             button_release_event {| type := BUTTON_RELEASE; button := 3 |}])
    as H by (repeat constructor).
  split; [exact H|].
  exact (proj1 (X23_image_click (__init__ (Some 5)) _
                  {| type := BUTTON_PRESS; button := 1 |}
                  {| type := BUTTON_RELEASE; button := 1 |}
                  eq_refl eq_refl eq_refl eq_refl H)).
Defined.

End ImageProofs.

(** ** SaveDialog: the extension of the returned path *)

Section SaveDialogProofs.
Import SaveDialog.

Lemma endswith_refl s : endswith s s = true.
Proof. destruct s; cbn [endswith]; rewrite String.eqb_refl; reflexivity. Qed.

Lemma endswith_append path suffix :
  endswith (String.append path suffix) suffix = true.
Proof.
  induction path as [|c path IH].
  - apply endswith_refl.
  - change (String.append (String c path) suffix)
      with (String c (String.append path suffix)).
    cbn [endswith]. rewrite IH. apply orb_true_r.
Qed.

Lemma init_selectedfilter (pattern : string) :
  selectedfilter (__init__ (Some pattern)) = Some (extension_of pattern).
Proof.
  unfold __init__, _add_filter, extension_of.
  destruct (TreeView.is_substring "png" pattern); [reflexivity|].
  destruct (TreeView.is_substring "avi" pattern); [reflexivity|].
  destruct (TreeView.is_substring "npz" pattern); reflexivity.
Qed.

(** X24. A save dialog made with a filter pattern settles on an
    extension: [.png] if the pattern contains [png], else [.avi] if it
    contains [avi], else [.npz] if it contains [npz], and otherwise the
    pattern itself, as it stands.  When the dialog is confirmed the
    path returned always ends with that extension: it is the chosen
    file name if that already ends with it, and the file name with the
    extension appended if not, so confirming the returned path again
    changes nothing.  On cancel, and on any other response, the result
    is [None]; the dialog is destroyed on confirm and on cancel only. *)
Theorem X24_save_dialog_extension (pattern filename : string) :
  let self := __init__ (Some pattern) in
  let ext := extension_of pattern in
  exists path,
    (get_path self RESPONSE_OK filename).2 = Some path /\
    endswith path ext = true /\
    (endswith filename ext = true -> path = filename) /\
    (endswith filename ext = false -> path = String.append filename ext) /\
    (get_path self RESPONSE_OK path).2 = Some path /\
    (get_path self RESPONSE_CANCEL filename).2 = None /\
    (get_path self RESPONSE_OTHER filename).2 = None /\
    destroyed (get_path self RESPONSE_OK filename).1 = true /\
    destroyed (get_path self RESPONSE_CANCEL filename).1 = true /\
    destroyed (get_path self RESPONSE_OTHER filename).1 = false.
Proof.
  cbn zeta. unfold get_path. rewrite init_selectedfilter.
  assert (destroyed (__init__ (Some pattern)) = false) as Hd.
  { unfold __init__, _add_filter.
    destruct (TreeView.is_substring "png" pattern); [reflexivity|].
    destruct (TreeView.is_substring "avi" pattern); [reflexivity|].
    destruct (TreeView.is_substring "npz" pattern); reflexivity. }
  destruct (endswith filename (extension_of pattern)) eqn:E; cbn [negb snd fst].
  - exists filename. rewrite E. cbn [negb].
    repeat split; try assumption; try discriminate.
  - exists (String.append filename (extension_of pattern)).
    rewrite endswith_append. cbn [negb].
    repeat split; try assumption; try discriminate.
Qed.

(** X25. A save dialog made without a filter returns the chosen file
    name unchanged.  A pattern that names none of the three known types
    is itself used as the extension: the pattern text, wildcard
    included, is appended to a file name that does not end with it. *)
Theorem X25_save_dialog_unknown_filter (pattern filename : string) :
  (get_path (__init__ None) RESPONSE_OK filename).2 = Some filename /\
  (TreeView.is_substring "png" pattern = false ->
   TreeView.is_substring "avi" pattern = false ->
   TreeView.is_substring "npz" pattern = false ->
   endswith filename pattern = false ->
   (get_path (__init__ (Some pattern)) RESPONSE_OK filename).2
   = Some (String.append filename pattern)).
Proof.
  split; [reflexivity|]. intros H1 H2 H3 He.
  unfold get_path. rewrite init_selectedfilter.
  unfold extension_of. rewrite H1, H2, H3, He. reflexivity.
Qed.

Lemma X25_save_dialog_unknown_filter_witness :
  TreeView.is_substring "png" "*.txt" = false /\
  TreeView.is_substring "avi" "*.txt" = false /\
  TreeView.is_substring "npz" "*.txt" = false /\
  endswith "notes" "*.txt" = false /\
  (get_path (__init__ (Some "*.txt")) RESPONSE_OK "notes").2
  = Some "notes*.txt".
Proof.
  assert (TreeView.is_substring "png" "*.txt" = false) as H1 by reflexivity.
  assert (TreeView.is_substring "avi" "*.txt" = false) as H2 by reflexivity.
  assert (TreeView.is_substring "npz" "*.txt" = false) as H3 by reflexivity.
  assert (endswith "notes" "*.txt" = false) as H4 by reflexivity.
  split; [exact H1|]. split; [exact H2|]. split; [exact H3|].
  split; [exact H4|].
  exact (proj2 (X25_save_dialog_unknown_filter "*.txt" "notes") H1 H2 H3 H4).
Defined.

End SaveDialogProofs.

(** ** name_mangle *)

Section NameMangleProofs.
Import Functions.

Lemma mangle_lower_char (c : ascii) :
  is_name_char (mangle_char (lower c)) = true /\
  mangle_char (lower (mangle_char (lower c))) = mangle_char (lower c) /\
  lower (lower c) = lower c.
Proof.
  destruct c as [[] [] [] [] [] [] [] []]; vm_compute; repeat split.
Qed.

Lemma str_map_length f s : String.length (str_map f s) = String.length s.
Proof. induction s; simpl; congruence. Qed.

Lemma string_length_append a b :
  String.length (String.append a b) = String.length a + String.length b.
Proof.
  induction a as [|c a IH]; [reflexivity|].
  change (String.append (String c a) b) with (String c (String.append a b)).
  simpl. rewrite IH. reflexivity.
Qed.

Lemma append_empty_l s : String.append "" s = s.
Proof. reflexivity. Qed.

Lemma mangle_forall name :
  str_forall is_name_char (str_map mangle_char (str_map lower name)) = true.
Proof.
  induction name as [|c name IH]; [reflexivity|].
  cbn [str_map str_forall]. rewrite IH.
  rewrite (proj1 (mangle_lower_char c)). reflexivity.
Qed.

Lemma mangle_idem name :
  str_map mangle_char (str_map lower
    (str_map mangle_char (str_map lower name)))
  = str_map mangle_char (str_map lower name).
Proof.
  induction name as [|c name IH]; [reflexivity|].
  cbn [str_map]. rewrite IH.
  rewrite (proj1 (proj2 (mangle_lower_char c))). reflexivity.
Qed.

Lemma lower_idem name : str_map lower (str_map lower name) = str_map lower name.
Proof.
  induction name as [|c name IH]; [reflexivity|].
  cbn [str_map]. rewrite IH.
  rewrite (proj2 (proj2 (mangle_lower_char c))). reflexivity.
Qed.

(** X26. [name_mangle] keeps the length of the name (after the prefix)
    and turns every character into a lower-case letter, a digit or an
    underscore; mangling a mangled name changes nothing; and names that
    differ only in the case of their letters mangle to the same
    name. *)
Theorem X26_name_mangle (name pfx : string) :
  String.length (name_mangle name pfx)
  = String.length pfx + String.length name /\
  str_forall is_name_char (name_mangle name "") = true /\
  name_mangle (name_mangle name "") "" = name_mangle name "" /\
  name_mangle (str_map lower name) pfx = name_mangle name pfx.
Proof.
  unfold name_mangle. rewrite !append_empty_l. split; [|split; [|split]].
  - rewrite string_length_append, !str_map_length. reflexivity.
  - apply mangle_forall.
  - apply mangle_idem.
  - rewrite lower_idem. reflexivity.
Qed.

End NameMangleProofs.

(** ** build_info *)

Section BuildInfoProofs.
Import Py Functions.








(** Two titles that mangle to one name: the label is attached to the
    table, and the bunch holds the entry under the name. *)
Lemma build_info_later_title_wins :
  exists table bunch,
    build_info [["A"; "label"; "a"; "entry"]] "vertical"
    = inr (Wrapped table, bunch) /\
    table = [(Label_ "A" (Some (95, 50)%Z), 0, 0); (TextEntry_, 1, 0)] /\
    bunch !! "a" = Some TextEntry_.
Proof.
  eexists _, _. split; [reflexivity|]. split; [reflexivity|].
  apply lookup_insert_eq.
Qed.


End BuildInfoProofs.

Section BuildInfoSuccessProofs.
Import Py Functions.

Lemma make_widget_known (title wtype : string) :
  wtype ∈ known_wtypes <-> exists w, make_widget title wtype = inr w.
Proof.
  split.
  - unfold known_wtypes. intros H.
    repeat (apply elem_of_cons in H as [-> | H];
            [eexists; reflexivity|]).
    inversion H.
  - intros [w H]. unfold make_widget in H.
    repeat match type of H with
    | (if String.eqb ?a ?b then _ else _) = _ =>
        destruct (String.eqb a b) eqn:E;
        [apply String.eqb_eq in E; subst;
         unfold known_wtypes; set_solver | clear E]
    end.
    discriminate.
Qed.

Lemma build_cell_ok tup row col info :
  caption_ok tup -> exists info', build_cell tup row col info = inr info'.
Proof.
  intros [[k Hk] Hw]. unfold build_cell.
  destruct (col * 2 <? length tup)%nat eqn:E; [|eauto].
  apply Nat.ltb_lt in E.
  destruct (lookup_lt_is_Some_2 tup (col * 2)) as [title Ht]; [lia|].
  destruct (lookup_lt_is_Some_2 tup (col * 2 + 1)) as [wtype Hwt]; [lia|].
  assert (take 2 (drop (col * 2) tup) = [title; wtype]) as ->.
  { assert (drop (col * 2) tup !! 0 = Some title) as H0
      by (rewrite lookup_drop, Nat.add_0_r; exact Ht).
    assert (drop (col * 2) tup !! 1 = Some wtype) as H1
      by (rewrite lookup_drop; exact Hwt).
    destruct (drop (col * 2) tup) as [|a [|b l]]; try discriminate.
    injection H0 as ->. injection H1 as ->. reflexivity. }
  destruct (proj1 (make_widget_known title wtype) (Hw col wtype Hwt)) as [w ->].
  eauto.
Qed.

Lemma build_row_ok tup row cols info :
  caption_ok tup -> exists info', build_row tup row cols info = inr info'.
Proof.
  intros Hok. revert info. induction cols as [|col cols IH]; intros info.
  - eexists; reflexivity.
  - cbn [build_row].
    destruct (build_cell_ok tup row col info Hok) as [info1 ->]. apply IH.
Qed.

Lemma build_rows_ok captions row cols info :
  Forall caption_ok captions ->
  exists info', build_rows captions row cols info = inr info'.
Proof.
  intros Hok. revert row info.
  induction Hok as [|tup rest Htup Hrest IH]; intros row info.
  - eexists; reflexivity.
  - cbn [build_rows].
    destruct (build_row_ok tup row (seq 0 cols) info Htup) as [info1 ->].
    apply IH.
Qed.

Lemma widest_even captions :
  Forall caption_ok captions ->
  Nat.Even (foldl (fun acc tup => Nat.max acc (length tup)) 0 captions).
Proof.
  intros Hok.
  assert (forall acc, Nat.Even acc ->
    Nat.Even (foldl (fun acc tup => Nat.max acc (length tup)) acc captions))
    as H.
  { induction Hok as [|tup rest [Htup _] Hrest IH]; intros acc Hacc;
      [exact Hacc|].
    cbn [foldl]. apply IH.
    destruct (Nat.max_spec acc (length tup)) as [[_ ->] | [_ ->]]; assumption. }
  apply H. exists 0. reflexivity.
Qed.

(** X28. [build_info] returns, raising nothing, whenever every caption
    is made of titles and known type tags in turn: an even number of
    entries, each one at an odd position being one of the nineteen tags
    of [make_widget].  Captions of different lengths are allowed, the
    shorter ones leave the rest of their row empty; the layout comes in
    a box with a stretching spacer under it for the orientation
    ['horizontal'] and bare for any other. *)
Theorem X28_build_info_succeeds (captions : list (list string))
    (orientation : string) :
  Forall caption_ok captions ->
  exists table bunch,
    build_info captions orientation
    = inr (hadjust (Wrapped table) orientation, bunch) /\
    (orientation <> "horizontal" ->
     hadjust (Wrapped table) orientation = Wrapped table) /\
    hadjust (Wrapped table) "horizontal"
    = VBoxOf [(Wrapped table, 0%Z); (Spacer, 1%Z)].
Proof.
  intros Hok. unfold build_info.
  destruct (widest_even captions Hok) as [k Hk]. rewrite Hk.
  replace (2 * k mod 2) with 0
    by (symmetry; rewrite Nat.mul_comm; apply Nat.Div0.mod_mul).
  cbn [Nat.eqb negb].
  destruct (build_rows_ok captions 0 (2 * k / 2)
              {| attached := []; wb := ∅ |} Hok) as [info ->].
  exists (attached info), (wb info). split; [reflexivity|].
  split; [|reflexivity].
  intros Hne. unfold hadjust. apply String.eqb_neq in Hne. rewrite Hne.
  reflexivity.
Qed.

Lemma X28_build_info_succeeds_witness :
  let captions := [["Zoom:"; "label"; "Zoom"; "entry"]; ["Go"; "button"]] in
  Forall caption_ok captions /\
  exists table bunch,
    build_info captions "vertical" = inr (Wrapped table, bunch).
Proof.
  cbn zeta.
  assert (Forall caption_ok
            [["Zoom:"; "label"; "Zoom"; "entry"]; ["Go"; "button"]]) as H.
  { constructor; [|constructor; [|constructor]].
    - split; [exists 2; reflexivity|].
      intros [|[|i]] wtype Hw; try discriminate;
        injection Hw as <-; unfold known_wtypes; set_solver.
    - split; [exists 1; reflexivity|].
      intros [|i] wtype Hw; try discriminate;
        injection Hw as <-; unfold known_wtypes; set_solver. }
  split; [exact H|].
  destruct (X28_build_info_succeeds _ "vertical" H)
    as (table & bunch & Hb & _ & _).
  exists table, bunch. exact Hb.
Defined.

End BuildInfoSuccessProofs.
